(** * SafeNest AI: risk scorer and temporal tracker

    A shallow embedding of [backend/inference/risk_scorer.py] and
    [backend/inference/temporal_tracker.py], and the properties of the
    scoring / tracking core that the specification states about them.

    Conventions of the embedding.
    - Python numbers ([int], [float]) are exact rationals [Q]; integer
      results of [round] and frame counters are [Z].  Arithmetic is
      therefore the real-number reading of the formulas.  The program
      computes in binary64: where a property speaks of a rounded value
      ([round(x)], [round(x, 2)]) or of a strict threshold on a computed
      number, it is stated up to an explicit slack ([roundoff]), so that
      it does not depend on how a tie or a boundary case is rounded.
    - A Python [dict] with optional keys is a record of [option] fields
      ([None] = key absent).  The value under a detection's ['bbox'] key
      is a [value]: it need not be a list of numbers.
    - A [string] is ASCII text.
    - A Python exception is a value of [exn]; fallible code returns
      [result].
    - Code that mutates [self] or talks to the outside world takes the
      state / the world as an argument and returns the new state and the
      list of effects it performed. *)

From Stdlib Require Import ZArith QArith Qround Qminmax Qabs Lqa Lia.
From Stdlib Require Import List String Ascii Bool.
From Stdlib Require Import Permutation Sorted DecimalString.
Import ListNotations.

Local Open Scope Q_scope.

(* ------------------------------------------------------------------ *)
(** ** Exceptions and the error monad *)

Inductive exn : Type :=
| ZeroDivisionError
| KeyError (key : string)
| IndexError
| TypeError
| ValidationError.   (* named by the specification; no code path raises it *)

Inductive result (A : Type) : Type :=
| Ok (a : A)
| Raise (e : exn).
Arguments Ok {A} a.
Arguments Raise {A} e.

Definition rbind {A B} (m : result A) (k : A -> result B) : result B :=
  match m with
  | Ok a => k a
  | Raise e => Raise e
  end.

Declare Scope result_scope.
Delimit Scope result_scope with result.
Notation "x <- m ;; k" := (rbind m (fun x => k))
  (at level 61, m at next level, right associativity) : result_scope.
Notation "' pat <- m ;; k" := (rbind m (fun x => match x with pat => k end))
  (at level 61, pat pattern, m at next level, right associativity) : result_scope.

(* ------------------------------------------------------------------ *)
(** ** Python values

    What a detection dict can hold under a key whose type the code does
    not fix: the values of a JSON document.  A number stands for an
    [int], a [float] or a [bool] ([True] and [False] are the integers 1
    and 0); the keys of a dict are strings. *)

#[local] Unset Elimination Schemes.
Inductive value : Type :=
| VNone
| VNum (q : Q)
| VStr (s : string)
| VList (items : list value)
| VDict (items : list (string * value)).
#[local] Set Elimination Schemes.

(* ------------------------------------------------------------------ *)
(** ** Python built-ins on numbers *)

Module Py.

Definition ltb (x y : Q) : bool := negb (Qle_bool y x).
Definition leb (x y : Q) : bool := Qle_bool x y.
Definition eqb (x y : Q) : bool := Qeq_bool x y.

(** [min(a, b)]: the first argument unless the second is strictly smaller. *)
Definition min (a b : Q) : Q := if ltb b a then b else a.
(** [max(a, b)]: the first argument unless the second is strictly larger. *)
Definition max (a b : Q) : Q := if ltb a b then b else a.

(** [round(x)]: nearest integer, ties to the even neighbour. *)
Definition round (x : Q) : Z :=
  let f := Qfloor x in
  match Qcompare (x - inject_Z f) (1 # 2) with
  | Lt => f
  | Gt => (f + 1)%Z
  | Eq => if Z.even f then f else (f + 1)%Z
  end.

(** [round(x, 2)]: the same rule at two decimals. *)
Definition round2 (x : Q) : Q := inject_Z (round (x * 100)) / 100.

(** [sum(xs)] *)
Definition sum (xs : list Q) : Q := fold_left Qplus xs 0.

(** [a / b] on numbers *)
Definition div (a b : Q) : result Q :=
  if eqb b 0 then Raise ZeroDivisionError else Ok (a / b).

(** [str.lower()] on ASCII text *)
Definition lower_ascii (c : ascii) : ascii :=
  let n := nat_of_ascii c in
  if andb (Nat.leb 65 n) (Nat.leb n 90) then ascii_of_nat (n + 32) else c.

Fixpoint lower (s : string) : string :=
  match s with
  | EmptyString => EmptyString
  | String c s' => String (lower_ascii c) (lower s')
  end.

(** [xs[i]] on a list *)
Definition index {A} (xs : list A) (i : nat) : result A :=
  match nth_error xs i with
  | Some x => Ok x
  | None => Raise IndexError
  end.

(** [d[key]] on an optional record field *)
Definition getitem {A} (key : string) (field : option A) : result A :=
  match field with
  | Some x => Ok x
  | None => Raise (KeyError key)
  end.

(** [d.get(key, default)] *)
Definition get {A} (field : option A) (default : A) : A :=
  match field with
  | Some x => x
  | None => default
  end.

(** [len(v)]: defined on strings, lists and dicts. *)
Definition len (v : value) : result nat :=
  match v with
  | VStr s => Ok (String.length s)
  | VList items => Ok (List.length items)
  | VDict items => Ok (List.length items)
  | VNone | VNum _ => Raise TypeError
  end.

(** [v[i]] for an integer literal [i >= 0]: an item of a list, a character
    of a string, a missing key of a dict (whose keys are strings). *)
Definition item (v : value) (i : nat) : result value :=
  match v with
  | VList items => index items i
  | VStr s =>
      match String.get i s with
      | Some c => Ok (VStr (String c EmptyString))
      | None => Raise IndexError
      end
  | VDict _ => Raise (KeyError (NilZero.string_of_uint (Nat.to_uint i)))
  | VNone | VNum _ => Raise TypeError
  end.

(** [a - b]: defined on numbers only. *)
Definition sub (a b : value) : result Q :=
  match a, b with
  | VNum x, VNum y => Ok (x - y)%Q
  | _, _ => Raise TypeError
  end.

(** [[x0, x1, ...]], a list of numbers. *)
Definition box (coords : list Q) : value := VList (map VNum coords).

(** The numbers at the head of a list value: all of its items when the
    value is a list of numbers. *)
Fixpoint leading_numbers (items : list value) : list Q :=
  match items with
  | VNum q :: rest => q :: leading_numbers rest
  | _ => []
  end.

Definition numbers_of (v : value) : list Q :=
  match v with
  | VList items => leading_numbers items
  | _ => []
  end.

End Py.

(* ------------------------------------------------------------------ *)
(** ** risk_scorer.py: tables *)

Record DefectWeight : Type := {
  severity : Q;
  area_multiplier : Q;
  description : string
}.

Definition dict (V : Type) : Type := list (string * V).

Fixpoint dict_find {V} (d : dict V) (k : string) : option V :=
  match d with
  | [] => None
  | (k', v) :: d' => if String.eqb k' k then Some v else dict_find d' k
  end.

Definition dict_get {V} (d : dict V) (k : string) (default : V) : V :=
  Py.get (dict_find d k) default.

(** [d[k] = v]: overwrite in place, or append a new key at the end. *)
Fixpoint dict_set {V} (d : dict V) (k : string) (v : V) : dict V :=
  match d with
  | [] => [(k, v)]
  | (k', v') :: d' =>
      if String.eqb k' k then (k', v) :: d' else (k', v') :: dict_set d' k v
  end.

Local Open Scope string_scope.

Definition default_weight : DefectWeight :=
  {| severity := 2; area_multiplier := 1;
     description := "Potential issue requiring assessment" |}.

Definition DEFECT_WEIGHTS : dict DefectWeight :=
  [ ("crack", {| severity := 3; area_multiplier := 15 # 10;
        description := "Structural cracks may indicate foundation or settling issues" |});
    ("leak", {| severity := 4; area_multiplier := 2;
        description := "Active leaks cause progressive damage" |});
    ("water_damage", {| severity := 4; area_multiplier := 2;
        description := "Water damage may hide mold or rot" |});
    ("damp", {| severity := 2; area_multiplier := 12 # 10;
        description := "Dampness indicates moisture intrusion" |});
    ("dampness", {| severity := 2; area_multiplier := 12 # 10;
        description := "Dampness indicates moisture intrusion" |});
    ("mold", {| severity := 5; area_multiplier := 25 # 10;
        description := "Mold poses health hazards and spreads" |});
    ("mould", {| severity := 5; area_multiplier := 25 # 10;
        description := "Mold poses health hazards and spreads" |});
    ("corrosion", {| severity := 3; area_multiplier := 15 # 10;
        description := "Corrosion weakens structural elements" |});
    ("rust", {| severity := 3; area_multiplier := 15 # 10;
        description := "Rust indicates moisture exposure" |});
    ("peeling", {| severity := 15 # 10; area_multiplier := 1;
        description := "Peeling paint may expose surfaces" |});
    ("stain", {| severity := 1; area_multiplier := 8 # 10;
        description := "Staining may indicate past water issues" |});
    ("electrical", {| severity := 45 # 10; area_multiplier := 1;
        description := "Electrical issues pose fire/safety risk" |});
    ("spalling", {| severity := 35 # 10; area_multiplier := 18 # 10;
        description := "Concrete spalling exposes rebar" |});
    ("deformation", {| severity := 4; area_multiplier := 2;
        description := "Structural deformation is serious" |});
    ("default", default_weight) ].

Definition AGE_FACTORS : dict Q :=
  [ ("pre_1950", 15); ("pre_1970", 10); ("1970_1990", 5);
    ("1990_2010", 2); ("post_2010", 0) ].

Definition CLIMATE_FACTORS : dict (dict Q) :=
  [ ("hot_humid", [("mold", 15 # 10); ("dampness", 13 # 10); ("rust", 12 # 10)]);
    ("cold_dry", [("crack", 13 # 10); ("spalling", 14 # 10)]);
    ("coastal", [("rust", 15 # 10); ("corrosion", 15 # 10); ("salt_damage", 14 # 10)]);
    ("temperate", []) ].

Local Close Scope string_scope.

(* ------------------------------------------------------------------ *)
(** ** risk_scorer.py: records *)

(** A detection dict; every key is optional. *)
Record Defect : Type := {
  d_class : option string;
  d_confidence : option Q;
  d_bbox : option value;
  d_affected_area_percent : option Q
}.

(** The [user_context] dict, restricted to the two keys the scorer reads. *)
Record UserContext : Type := {
  uc_climate : option string;
  uc_building_age : option string
}.

(** Truth value of [user_context]: [None] and the empty dict are false. *)
Definition truthy_context (user_context : option UserContext) : bool :=
  match user_context with
  | None => false
  | Some c =>
      match uc_climate c, uc_building_age c with
      | None, None => false
      | _, _ => true
      end
  end.

Record BreakdownItem : Type := {
  bi_defect_type : string;
  bi_confidence : Q;
  bi_penalty : Q;
  bi_severity : Q;
  bi_description : string;
  bi_climate_adjusted : bool
}.

Record PenaltyBreakdown : Type := {
  pb_defects : Q;
  pb_age_factor : Q;
  pb_climate_factor : option Q;            (* only in the no-defect result *)
  pb_by_defect_type : option (dict Q)      (* only in the computed result *)
}.

Record ScoreResult : Type := {
  score : Z;
  risk_level : string;
  defect_count : Z;
  total_penalty : option Q;                (* only in the computed result *)
  penalty_breakdown : PenaltyBreakdown;
  breakdown : list BreakdownItem;
  summary : string;
  ai_explanation : option string;
  recommended_actions : list string;
  user_context_applied : option bool       (* only in the computed result *)
}.

(** The part of [CortexAnalysisResult] that the scorer reads. *)
Record CortexAnalysisResult : Type := {
  risk_explanation : string;
  cortex_recommended_actions : list string
}.

(** What lies outside the scorer: whether [snowflake_analytics] can be
    imported, and what [analyze_with_cortex] answers ([None]: it raised). *)
Record World : Type := {
  snowflake_importable : bool;
  analyze_with_cortex :
    list Defect -> option UserContext -> option CortexAnalysisResult
}.

Inductive Effect : Type :=
| LogInfo
| LogWarning
| ImportSnowflake
| CortexCall (defects : list Defect) (user_context : option UserContext).

Record RiskScorer : Type := {
  base_score : Q;
  max_defects_penalty : Q;
  confidence_weight : Q;
  enable_cortex_ai : bool;
  cortex_analytics : bool       (* [self._cortex_analytics is not None] *)
}.

(** [RiskScorer()] with the defaults of [__init__]. *)
Definition new_RiskScorer : RiskScorer :=
  {| base_score := 100; max_defects_penalty := 70;
     confidence_weight := 8 # 10; enable_cortex_ai := true;
     cortex_analytics := false |}.

(* ------------------------------------------------------------------ *)
(** ** risk_scorer.py: calculate_score *)

Local Open Scope string_scope.
Local Open Scope result_scope.

(** [RiskScorer._get_cortex_analytics] *)
Definition _get_cortex_analytics (self : RiskScorer) (w : World)
  : RiskScorer * bool * list Effect :=
  if andb (negb (cortex_analytics self)) (enable_cortex_ai self) then
    if snowflake_importable w then
      ({| base_score := base_score self;
          max_defects_penalty := max_defects_penalty self;
          confidence_weight := confidence_weight self;
          enable_cortex_ai := enable_cortex_ai self;
          cortex_analytics := true |}, true, [ImportSnowflake])
    else (self, false, [ImportSnowflake; LogWarning])
  else (self, cortex_analytics self, []).

(** The result of the fast path, [if not defects]. *)
Definition base_result : ScoreResult :=
  {| score := 100;
     risk_level := "Low Risk";
     defect_count := 0;
     total_penalty := None;
     penalty_breakdown :=
       {| pb_defects := 0; pb_age_factor := 0;
          pb_climate_factor := Some 0; pb_by_defect_type := None |};
     breakdown := [];
     summary := "No defects detected. Property appears to be in good condition.";
     ai_explanation := None;
     recommended_actions := ["Continue regular maintenance"];
     user_context_applied := None |}.

(** Lines 168-177: the area factor of one defect. *)
Definition area_factor (image_area : Z) (defect : Defect) : result Q :=
  match d_affected_area_percent defect with
  | Some affected_area_percent => Ok (affected_area_percent / 10)
  | None =>
      let bbox := Py.get (d_bbox defect) (Py.box [0; 0; 0; 0]%Q) in
      n <- Py.len bbox ;;
      if Nat.eqb n 4 then
        b2 <- Py.item bbox 2 ;;
        b0 <- Py.item bbox 0 ;;
        width <- Py.sub b2 b0 ;;
        b3 <- Py.item bbox 3 ;;
        b1 <- Py.item bbox 1 ;;
        height <- Py.sub b3 b1 ;;
        let box_area := (width * height)%Q in
        r <- Py.div box_area (inject_Z image_area) ;;
        Ok (r * 10)%Q
      else Ok 1%Q
  end.

Definition defect_class_of (defect : Defect) : string :=
  Py.lower (Py.get (d_class defect) "unknown").

Definition weight_of (defect_class : string) : DefectWeight :=
  dict_get DEFECT_WEIGHTS defect_class default_weight.

Definition confidence_factor (self : RiskScorer) (confidence : Q) : Q :=
  (confidence * confidence_weight self + (1 - confidence_weight self))%Q.

(** Lines 157-185: the penalty of one defect. *)
Definition defect_penalty (self : RiskScorer) (climate_adjustments : dict Q)
    (image_area : Z) (defect : Defect) : result Q :=
  let defect_class := defect_class_of defect in
  let confidence := Py.get (d_confidence defect) (1 # 2) in
  let weight := weight_of defect_class in
  let climate_mult := dict_get climate_adjustments defect_class 1%Q in
  area_factor <- area_factor image_area defect ;;
  let base_penalty := (severity weight * 3)%Q in
  let area_penalty := (area_factor * area_multiplier weight)%Q in
  Ok ((base_penalty + area_penalty) * confidence_factor self confidence
      * climate_mult)%Q.

Record LoopState : Type := {
  ls_total_penalty : Q;
  ls_breakdown : list BreakdownItem;
  ls_penalty_by_type : dict Q
}.

(** One iteration of [for defect in defects]. *)
Definition loop_body (self : RiskScorer) (climate_adjustments : dict Q)
    (image_area : Z) (st : LoopState) (defect : Defect) : result LoopState :=
  let defect_class := defect_class_of defect in
  let confidence := Py.get (d_confidence defect) (1 # 2) in
  let weight := weight_of defect_class in
  let climate_mult := dict_get climate_adjustments defect_class 1%Q in
  penalty <- defect_penalty self climate_adjustments image_area defect ;;
  Ok {| ls_total_penalty := (ls_total_penalty st + penalty)%Q;
        ls_penalty_by_type :=
          dict_set (ls_penalty_by_type st) defect_class
            (dict_get (ls_penalty_by_type st) defect_class 0%Q + penalty)%Q;
        ls_breakdown :=
          (ls_breakdown st ++
           [ {| bi_defect_type := defect_class;
                bi_confidence := Py.round2 confidence;
                bi_penalty := Py.round2 penalty;
                bi_severity := severity weight;
                bi_description := description weight;
                bi_climate_adjusted := negb (Py.eqb climate_mult 1) |} ])%list |}.

Fixpoint defects_loop (self : RiskScorer) (climate_adjustments : dict Q)
    (image_area : Z) (st : LoopState) (defects : list Defect)
  : result LoopState :=
  match defects with
  | [] => Ok st
  | defect :: rest =>
      st' <- loop_body self climate_adjustments image_area st defect ;;
      defects_loop self climate_adjustments image_area st' rest
  end.

Definition climate_of (user_context : option UserContext) : string :=
  match user_context with
  | Some c =>
      if truthy_context user_context
      then Py.get (uc_climate c) "temperate" else "temperate"
  | None => "temperate"
  end.

(** Lines 199-204: the building-age penalty. *)
Definition age_penalty_of (user_context : option UserContext) : Q :=
  match user_context with
  | Some c =>
      match uc_building_age c with
      | Some age_key => dict_get AGE_FACTORS age_key 0%Q
      | None => 0%Q
      end
  | None => 0%Q
  end.

(** Lines 214-237: band, summary and actions of a final score. *)
Definition risk_level_of (final_score : Z) : string :=
  if (final_score <=? 30)%Z then "High Risk"
  else if (final_score <=? 60)%Z then "Moderate Risk"
  else "Low Risk".

Definition summary_of (final_score : Z) : string :=
  if (final_score <=? 30)%Z then
    "Critical defects detected. Immediate professional inspection recommended."
  else if (final_score <=? 60)%Z then
    "Several defects detected. Consider addressing these issues soon."
  else "Minor issues detected. Property is in acceptable condition.".

Definition actions_of (final_score : Z) : list string :=
  if (final_score <=? 30)%Z then
    [ "Schedule professional inspection immediately";
      "Document all affected areas with photos";
      "Consider temporary mitigation measures" ]
  else if (final_score <=? 60)%Z then
    [ "Schedule professional assessment within 2 weeks";
      "Monitor affected areas for changes";
      "Obtain repair estimates" ]
  else
    [ "Include in regular maintenance schedule";
      "Monitor for deterioration over time" ].

(** Lines 239-249: the Cortex insights. *)
Definition cortex_insights (self : RiskScorer) (w : World)
    (defects : list Defect) (user_context : option UserContext)
    (recommended : list string)
  : RiskScorer * option string * list string * list Effect :=
  let '(self', cortex, fx) := _get_cortex_analytics self w in
  if cortex then
    match analyze_with_cortex w defects user_context with
    | Some cortex_result =>
        (self', Some (risk_explanation cortex_result),
         match cortex_recommended_actions cortex_result with
         | [] => recommended
         | _ :: _ => cortex_recommended_actions cortex_result
         end,
         (fx ++ [CortexCall defects user_context])%list)
    | None =>
        (self', None, recommended,
         (fx ++ [CortexCall defects user_context; LogWarning])%list)
    end
  else (self', None, recommended, fx).

(** [RiskScorer.calculate_score]: the outcome, the scorer afterwards, and
    the effects performed, in order. *)
Definition calculate_score (self : RiskScorer) (w : World)
    (defects : list Defect) (image_area : Z)
    (user_context : option UserContext)
  : result ScoreResult * RiskScorer * list Effect :=
  match defects with
  | [] => (Ok base_result, self, [])
  | _ :: _ =>
      let climate := climate_of user_context in
      let climate_adjustments := dict_get CLIMATE_FACTORS climate [] in
      match defects_loop self climate_adjustments image_area
              {| ls_total_penalty := 0; ls_breakdown := [];
                 ls_penalty_by_type := [] |} defects with
      | Raise e => (Raise e, self, [])
      | Ok st =>
          let age_penalty :=
            if truthy_context user_context
            then age_penalty_of user_context else 0%Q in
          let total_penalty := (ls_total_penalty st + age_penalty)%Q in
          let defect_penalty_capped :=
            Py.min (total_penalty - age_penalty) (max_defects_penalty self) in
          let total_penalty := (defect_penalty_capped + age_penalty)%Q in
          let final_score :=
            Py.round (Py.max 0 (base_score self - total_penalty)) in
          let '(self', ai_explanation, recommended_actions, fx) :=
            cortex_insights self w defects user_context
              (actions_of final_score) in
          (Ok {| score := final_score;
                 risk_level := risk_level_of final_score;
                 defect_count := Z.of_nat (List.length defects);
                 total_penalty := Some (Py.round2 total_penalty);
                 penalty_breakdown :=
                   {| pb_defects := Py.round2 defect_penalty_capped;
                      pb_age_factor := Py.round2 age_penalty;
                      pb_climate_factor := None;
                      pb_by_defect_type :=
                        Some (map (fun kv => (fst kv, Py.round2 (snd kv)))
                                (ls_penalty_by_type st)) |};
                 breakdown := ls_breakdown st;
                 summary := summary_of final_score;
                 ai_explanation := ai_explanation;
                 recommended_actions := recommended_actions;
                 user_context_applied :=
                   Some (match user_context with
                         | Some _ => true | None => false end) |},
           self', (fx ++ [LogInfo])%list)
      end
  end.

Local Close Scope result_scope.
Local Close Scope string_scope.

(* ------------------------------------------------------------------ *)
(** ** risk_scorer.py: aggregate_scores *)

Record SessionAggregate : Type := {
  agg_score : Z;
  average_score : Z;
  agg_risk_level : string;
  frames_analyzed : Z;
  total_defects_found : Z;
  defect_breakdown : list BreakdownItem
}.

(** A per-frame dict as [aggregate_scores] reads it: the keys ['score'],
    ['breakdown'] and ['defect_count'], each of which may be absent. *)
Record FrameScore : Type := {
  fs_score : option Z;
  fs_breakdown : option (list BreakdownItem);
  fs_defect_count : option Z
}.

(** The dict that [calculate_score] returns, as a frame. *)
Definition frame_of (r : ScoreResult) : FrameScore :=
  {| fs_score := Some (score r);
     fs_breakdown := Some (breakdown r);
     fs_defect_count := Some (defect_count r) |}.

(** [aggregate_scores] returns one of two dict shapes. *)
Inductive AggregateResult : Type :=
| NoFrames (r : ScoreResult)
| Session (a : SessionAggregate).

Local Open Scope string_scope.
Local Open Scope result_scope.

(** The items of the generators [s['score'] for s in frame_scores] and
    [s['defect_count'] for s in frame_scores], in order; the first missing
    key ends the iteration with [KeyError]. *)
Fixpoint scores_of (frame_scores : list FrameScore) : result (list Z) :=
  match frame_scores with
  | [] => Ok []
  | s :: rest =>
      x <- Py.getitem "score" (fs_score s) ;;
      xs <- scores_of rest ;;
      Ok (x :: xs)
  end.

Fixpoint defect_counts_of (frame_scores : list FrameScore) : result (list Z) :=
  match frame_scores with
  | [] => Ok []
  | s :: rest =>
      x <- Py.getitem "defect_count" (fs_defect_count s) ;;
      xs <- defect_counts_of rest ;;
      Ok (x :: xs)
  end.

(** [min(...)] and [sum(...)] over integers. *)
Definition min_Z (x0 : Z) (xs : list Z) : Z :=
  fold_left (fun m x => if (x <? m)%Z then x else m) xs x0.

Definition sum_Z (xs : list Z) : Z := fold_left Z.add xs 0%Z.

(** [RiskScorer.aggregate_scores] *)
Definition aggregate_scores (self : RiskScorer) (w : World)
    (frame_scores : list FrameScore)
  : result AggregateResult * RiskScorer * list Effect :=
  match frame_scores with
  | [] =>
      let '(r, self', fx) := calculate_score self w [] (640 * 480) None in
      (rbind r (fun r => Ok (NoFrames r)), self', fx)
  | s0 :: rest =>
      (x0 <- Py.getitem "score" (fs_score s0) ;;
       xs <- scores_of rest ;;
       let min_score := min_Z x0 xs in
       scores <- scores_of frame_scores ;;
       let avg_score :=
         (inject_Z (sum_Z scores)
          / inject_Z (Z.of_nat (List.length frame_scores)))%Q in
       let all_defects :=
         flat_map (fun fs => Py.get (fs_breakdown fs) []) frame_scores in
       let risk_level :=
         if (min_score <=? 30)%Z then "High Risk"
         else if (min_score <=? 60)%Z then "Moderate Risk"
         else "Low Risk" in
       counts <- defect_counts_of frame_scores ;;
       Ok (Session
             {| agg_score := min_score;
                average_score := Py.round avg_score;
                agg_risk_level := risk_level;
                frames_analyzed := Z.of_nat (List.length frame_scores);
                total_defects_found := sum_Z counts;
                defect_breakdown := all_defects |}),
       self, [])
  end.

Local Close Scope result_scope.
Local Close Scope string_scope.

(* ------------------------------------------------------------------ *)
(** ** temporal_tracker.py *)

(** A box enters [bboxes] only after its area has been computed from it:
    it is a list whose items 0 to 3 are numbers.  The track keeps it as the
    list of its coordinates ([Py.numbers_of]). *)
Record DefectTrack : Type := {
  track_id : Z;
  defect_class : string;
  first_frame : Z;
  last_frame : Z;
  frames_seen : Z;
  max_confidence : Q;
  areas : list Q;
  bboxes : list (list Q)
}.

(** [xs[:n]] and [xs[-n:]] for [0 < n]. *)
Definition slice_first {A} (n : nat) (xs : list A) : list A := firstn n xs.
Definition slice_last {A} (n : nat) (xs : list A) : list A :=
  skipn (List.length xs - n) xs.

(** [DefectTrack.growth_rate] *)
Definition growth_rate (self : DefectTrack) : Q :=
  if Nat.ltb (List.length (areas self)) 2 then 0
  else
    let n := Nat.min 3 (List.length (areas self)) in
    let start_avg := Py.sum (slice_first n (areas self)) / inject_Z (Z.of_nat n) in
    let end_avg := Py.sum (slice_last n (areas self)) / inject_Z (Z.of_nat n) in
    if Py.eqb start_avg 0 then 0
    else (end_avg - start_avg) / start_avg.

Local Open Scope result_scope.

(** [calculate_iou(box1, box2)] *)
Definition calculate_iou (box1 box2 : list Q) : result Q :=
  a0 <- Py.index box1 0 ;; b0 <- Py.index box2 0 ;;
  let x1 := Py.max a0 b0 in
  a1 <- Py.index box1 1 ;; b1 <- Py.index box2 1 ;;
  let y1 := Py.max a1 b1 in
  a2 <- Py.index box1 2 ;; b2 <- Py.index box2 2 ;;
  let x2 := Py.min a2 b2 in
  a3 <- Py.index box1 3 ;; b3 <- Py.index box2 3 ;;
  let y2 := Py.min a3 b3 in
  let intersection := (Py.max 0 (x2 - x1) * Py.max 0 (y2 - y1))%Q in
  let area1 := ((a2 - a0) * (a3 - a1))%Q in
  let area2 := ((b2 - b0) * (b3 - b1))%Q in
  let union := (area1 + area2 - intersection)%Q in
  if Py.ltb 0 union then Ok (intersection / union)%Q else Ok 0%Q.

(** [(bbox[2] - bbox[0]) * (bbox[3] - bbox[1])] on the value under the
    ['bbox'] key of a detection. *)
Definition bbox_area (bbox : value) : result Q :=
  b2 <- Py.item bbox 2 ;;
  b0 <- Py.item bbox 0 ;;
  width <- Py.sub b2 b0 ;;
  b3 <- Py.item bbox 3 ;;
  b1 <- Py.item bbox 1 ;;
  height <- Py.sub b3 b1 ;;
  Ok (width * height)%Q.

Local Close Scope result_scope.

Record TemporalTracker : Type := {
  tracks : list DefectTrack;
  next_id : Z;
  iou_threshold : Q;
  max_dropout : Z
}.

(** [TemporalTracker()] with the defaults of [__init__]. *)
Definition new_TemporalTracker : TemporalTracker :=
  {| tracks := []; next_id := 1; iou_threshold := 3 # 10; max_dropout := 5 |}.

(** *** State of an [update] call

    [update] mutates the track objects that [self.tracks] holds, and an
    exception leaves the mutations made so far in place.  A computation is
    a function from the tracker to the tracker afterwards and an outcome.
    A track object is referred to by its position in [self.tracks]:
    [active_tracks] holds references to the same objects, not copies. *)

Definition T (A : Type) : Type := TemporalTracker -> TemporalTracker * result A.

Definition t_ret {A} (a : A) : T A := fun s => (s, Ok a).
Definition t_bind {A B} (m : T A) (k : A -> T B) : T B :=
  fun s => match m s with
           | (s', Ok a) => k a s'
           | (s', Raise e) => (s', Raise e)
           end.
Definition t_lift {A} (r : result A) : T A := fun s => (s, r).
Definition t_get : T TemporalTracker := fun s => (s, Ok s).

Declare Scope tracker_scope.
Delimit Scope tracker_scope with tracker.
Notation "x <- m ;; k" := (t_bind m (fun x => k))
  (at level 61, m at next level, right associativity) : tracker_scope.
Notation "m ;;; k" := (t_bind m (fun _ => k))
  (at level 61, right associativity) : tracker_scope.

Definition set_tracks (s : TemporalTracker) (ts : list DefectTrack)
  : TemporalTracker :=
  {| tracks := ts; next_id := next_id s;
     iou_threshold := iou_threshold s; max_dropout := max_dropout s |}.

Fixpoint update_nth {A} (i : nat) (f : A -> A) (xs : list A) : list A :=
  match xs, i with
  | [], _ => []
  | x :: xs', O => f x :: xs'
  | x :: xs', S i' => x :: update_nth i' f xs'
  end.

(** Mutation of the track object at reference [i]. *)
Definition t_mutate (i : nat) (f : DefectTrack -> DefectTrack) : T unit :=
  fun s => (set_tracks s (update_nth i f (tracks s)), Ok tt).

Definition null_track : DefectTrack :=
  {| track_id := 0; defect_class := EmptyString; first_frame := 0;
     last_frame := 0; frames_seen := 0; max_confidence := 0;
     areas := []; bboxes := [] |}.

(** Dereference: references held by [active_tracks] are always in range. *)
Definition deref (s : TemporalTracker) (i : nat) : DefectTrack :=
  nth i (tracks s) null_track.

(** [hash(track)].  [DefectTrack] is declared with a bare [@dataclass]:
    with [eq=True] (the default) and [frozen=False] the decorator sets
    [__hash__] to [None], so hashing an instance raises [TypeError]. *)
Definition DefectTrack_hash (track : DefectTrack) : result Z := Raise TypeError.

(** [track in matched_tracks] and [matched_tracks.add(track)] on a [set]:
    both hash the element first. *)
Definition set_contains (matched : list nat) (i : nat) (track : DefectTrack)
  : result bool :=
  rbind (DefectTrack_hash track) (fun _ => Ok (existsb (Nat.eqb i) matched)).

Definition set_add (matched : list nat) (i : nat) (track : DefectTrack)
  : result (list nat) :=
  rbind (DefectTrack_hash track) (fun _ => Ok (i :: matched)).

(** [sorted(detections, key=lambda x: x['confidence'], reverse=True)]:
    the key is read on every element; the sort is stable, so detections of
    equal confidence keep their order. *)
Fixpoint insert_desc (x : Q * Defect) (l : list (Q * Defect))
  : list (Q * Defect) :=
  match l with
  | [] => [x]
  | y :: l' =>
      if Py.ltb (fst x) (fst y) then y :: insert_desc x l' else x :: y :: l'
  end.

Fixpoint keyed (detections : list Defect) : result (list (Q * Defect)) :=
  match detections with
  | [] => Ok []
  | det :: rest =>
      rbind (Py.getitem "confidence" (d_confidence det)) (fun c =>
      rbind (keyed rest) (fun ks => Ok ((c, det) :: ks)))
  end.

Definition sorted_by_confidence (detections : list Defect)
  : result (list Defect) :=
  rbind (keyed detections) (fun ks =>
    Ok (map snd (fold_right insert_desc [] ks))).

(** [enumerate(xs)] *)
Definition enumerate {A} (xs : list A) : list (nat * A) :=
  combine (seq 0 (List.length xs)) xs.

(** [[t for t in self.tracks if (frame_id - t.last_frame) <= self.max_dropout]],
    as references. *)
Definition active_tracks_of (s : TemporalTracker) (frame_id : Z) : list nat :=
  map fst
    (filter (fun it => (frame_id - last_frame (snd it) <=? max_dropout s)%Z)
       (enumerate (tracks s))).

Local Open Scope string_scope.

(** Lines 80-92: the inner loop over the active tracks; it only reads. *)
Fixpoint best_match (s : TemporalTracker) (matched : list nat) (det : Defect)
    (bbox : value) (active : list nat) (best_iou : Q) (best_track : option nat)
  : result (Q * option nat) :=
  match active with
  | [] => Ok (best_iou, best_track)
  | i :: rest =>
      let track := deref s i in
      rbind (set_contains matched i track) (fun seen =>
      if seen then best_match s matched det bbox rest best_iou best_track
      else
        rbind (Py.getitem "class" (d_class det)) (fun cls =>
        if negb (String.eqb (defect_class track) cls)
        then best_match s matched det bbox rest best_iou best_track
        else
          match last (map Some (bboxes track)) None with
          | None => best_match s matched det bbox rest best_iou best_track
          | Some last_bbox =>
              rbind (calculate_iou (Py.numbers_of bbox) last_bbox) (fun iou =>
              if Py.ltb best_iou iou
              then best_match s matched det bbox rest iou (Some i)
              else best_match s matched det bbox rest best_iou best_track)
          end))
  end.

Local Open Scope tracker_scope.

(** Lines 94-107: bind detection [i] to [best_track]. *)
Definition bind_detection (frame_id : Z) (det : Defect) (bbox : value)
    (area : Q) (i : nat) (best_track : nat)
    (assigned matched : list nat) : T (list nat * list nat) :=
  t_mutate best_track (fun t =>
    {| track_id := track_id t; defect_class := defect_class t;
       first_frame := first_frame t; last_frame := frame_id;
       frames_seen := frames_seen t; max_confidence := max_confidence t;
       areas := areas t; bboxes := bboxes t |}) ;;;
  t_mutate best_track (fun t =>
    {| track_id := track_id t; defect_class := defect_class t;
       first_frame := first_frame t; last_frame := last_frame t;
       frames_seen := (frames_seen t + 1)%Z;
       max_confidence := max_confidence t;
       areas := areas t; bboxes := bboxes t |}) ;;;
  confidence <- t_lift (Py.getitem "confidence" (d_confidence det)) ;;
  t_mutate best_track (fun t =>
    {| track_id := track_id t; defect_class := defect_class t;
       first_frame := first_frame t; last_frame := last_frame t;
       frames_seen := frames_seen t;
       max_confidence := Py.max (max_confidence t) confidence;
       areas := (areas t ++ [area])%list;
       bboxes := (bboxes t ++ [Py.numbers_of bbox])%list |}) ;;;
  let assigned' := i :: assigned in
  s <- t_get ;;
  matched' <- t_lift (set_add matched best_track (deref s best_track)) ;;
  t_ret (assigned', matched').

(** Lines 73-107: the loop that matches detections to active tracks. *)
Fixpoint match_loop (frame_id : Z) (active : list nat)
    (detections : list (nat * Defect)) (assigned matched : list nat)
  : T (list nat) :=
  match detections with
  | [] => t_ret assigned
  | (i, det) :: rest =>
      bbox <- t_lift (Py.getitem "bbox" (d_bbox det)) ;;
      area <- t_lift (bbox_area bbox) ;;
      s <- t_get ;;
      best <- t_lift (best_match s matched det bbox active 0 None) ;;
      match best with
      | (best_iou, Some best_track) =>
          if Py.leb (iou_threshold s) best_iou then
            am <- bind_detection frame_id det bbox area i best_track
                    assigned matched ;;
            match_loop frame_id active rest (fst am) (snd am)
          else match_loop frame_id active rest assigned matched
      | (_, None) => match_loop frame_id active rest assigned matched
      end
  end.

(** Lines 112-125: a new track for an unmatched detection. *)
Definition new_track (frame_id : Z) (det : Defect) : T unit :=
  bbox <- t_lift (Py.getitem "bbox" (d_bbox det)) ;;
  area <- t_lift (bbox_area bbox) ;;
  cls <- t_lift (Py.getitem "class" (d_class det)) ;;
  confidence <- t_lift (Py.getitem "confidence" (d_confidence det)) ;;
  fun s =>
    ({| tracks :=
          (tracks s ++
           [ {| track_id := next_id s; defect_class := cls;
                first_frame := frame_id; last_frame := frame_id;
                frames_seen := 1; max_confidence := confidence;
                areas := [area]; bboxes := [Py.numbers_of bbox] |} ])%list;
        next_id := (next_id s + 1)%Z;
        iou_threshold := iou_threshold s;
        max_dropout := max_dropout s |}, Ok tt).

(** Lines 110-125: the loop that creates the new tracks. *)
Fixpoint create_loop (frame_id : Z) (detections : list (nat * Defect))
    (assigned : list nat) : T unit :=
  match detections with
  | [] => t_ret tt
  | (i, det) :: rest =>
      if existsb (Nat.eqb i) assigned
      then create_loop frame_id rest assigned
      else new_track frame_id det ;;; create_loop frame_id rest assigned
  end.

(** [TemporalTracker.update]: the tracker afterwards and the outcome. *)
Definition update (detections : list Defect) (frame_id : Z) : T unit :=
  s <- t_get ;;
  let active_tracks := active_tracks_of s frame_id in
  detections <- t_lift (sorted_by_confidence detections) ;;
  assigned <- match_loop frame_id active_tracks (enumerate detections) [] [] ;;
  create_loop frame_id (enumerate detections) assigned.

Local Close Scope tracker_scope.
Local Close Scope string_scope.

(* ------------------------------------------------------------------ *)
(** ** temporal_tracker.py: get_summary *)

(** One entry of the ['tracks'] list of the summary. *)
Record TrackSummary : Type := {
  ts_id : Z;
  ts_class : string;
  ts_frames_seen : Z;
  ts_growth_rate : Q;
  ts_is_growing : bool
}.

Record Summary : Type := {
  total_tracks : Z;
  persistent_defects_count : Z;
  growing_defects_count : Z;
  summary_tracks : list TrackSummary
}.

(** [TemporalTracker.get_summary] *)
Definition get_summary (self : TemporalTracker) : Summary :=
  let persistent := filter (fun t => (3 <=? frames_seen t)%Z) (tracks self) in
  let growing := filter (fun t => Py.ltb (5 # 100) (growth_rate t)) persistent in
  {| total_tracks := Z.of_nat (List.length (tracks self));
     persistent_defects_count := Z.of_nat (List.length persistent);
     growing_defects_count := Z.of_nat (List.length growing);
     summary_tracks :=
       map (fun t =>
              {| ts_id := track_id t;
                 ts_class := defect_class t;
                 ts_frames_seen := frames_seen t;
                 ts_growth_rate := Py.round2 (growth_rate t);
                 ts_is_growing := Py.ltb (5 # 100) (growth_rate t) |})
           persistent |}.

(** A caller's loop over the frames of one session, as in
    [deep_analyzer.py], lines 382-383: [tracker.update(current_defects,
    frame_idx)] for each sampled frame, in order; an exception ends the
    loop. *)
Fixpoint run_updates (frames : list (list Defect * Z)) : T unit :=
  match frames with
  | [] => t_ret tt
  | (current_defects, frame_idx) :: rest =>
      t_bind (update current_defects frame_idx) (fun _ => run_updates rest)
  end.

(* ------------------------------------------------------------------ *)
(** ** snowflake_analytics.py: the local fallback analysis *)

(** [CortexAnalysisResult] with all the fields that [_local_analysis]
    fills ([trend_analysis] keeps its default, [None]). *)
Record LocalAnalysis : Type := {
  la_risk_explanation : string;
  la_severity_assessment : string;
  la_recommended_actions : list string;
  la_confidence_score : Q;
  la_anomaly_detected : bool
}.

(** [needle in hay] on strings. *)
Definition str_contains (needle hay : string) : bool :=
  match String.index 0 needle hay with
  | Some _ => true
  | None => false
  end.

(** [str(n)] for a length. *)
Definition str_of_nat (n : nat) : string :=
  NilZero.string_of_uint (Nat.to_uint n).

(** [max(xs)] on a non-empty list: the first of the largest elements. *)
Definition max_of (x0 : Q) (xs : list Q) : Q :=
  fold_left (fun m x => if Py.ltb m x then x else m) xs x0.

(** The distinct elements of a list, each at its first occurrence. *)
Fixpoint distinct (xs : list string) : list string :=
  match xs with
  | [] => []
  | x :: rest =>
      x :: filter (fun y => negb (String.eqb x y)) (distinct rest)
  end.

Definition critical_types : list string :=
  ["mold"; "water_damage"; "leak"; "structural"]%string.
Definition high_types : list string :=
  ["crack"; "rust"; "corrosion"; "dampness"]%string.

Section LocalFallback.

(** [', '.join(s)] for a set [s] of strings, given by its distinct
    elements: the order in which a set is iterated is the interpreter's
    choice. *)
Variable join_set : list string -> string.

Local Open Scope string_scope.

(** [SnowflakeCortexAnalytics._local_analysis] (the [building_profile]
    argument is not read). *)
Definition _local_analysis (defects : list Defect)
    (user_context : option UserContext) : LocalAnalysis :=
  match defects with
  | [] =>
      {| la_risk_explanation :=
           "No defects detected. Property appears to be in good condition.";
         la_severity_assessment := "Minimal";
         la_recommended_actions := ["Continue regular maintenance"];
         la_confidence_score := 95 # 100;
         la_anomaly_detected := false |}
  | d0 :: rest =>
      let defect_types := map defect_class_of defects in
      let confidences :=
        map (fun d => Py.get (d_confidence d) (1 # 2)) defects in
      let avg_confidence :=
        (Py.sum confidences / inject_Z (Z.of_nat (List.length confidences)))%Q in
      let max_confidence :=
        max_of (Py.get (d_confidence d0) (1 # 2))
          (map (fun d => Py.get (d_confidence d) (1 # 2)) rest) in
      let has_critical :=
        existsb (fun t => existsb (String.eqb t) defect_types) critical_types in
      let has_high :=
        existsb (fun t => existsb (String.eqb t) defect_types) high_types in
      let '(severity, explanation, actions) :=
        if has_critical then
          ("Critical",
           "Critical issues detected including "
           ++ join_set
                (filter (fun t => existsb (String.eqb t) critical_types)
                   (distinct defect_types))
           ++ ". ",
           ["Schedule immediate professional inspection";
            "Document all affected areas with photos";
            "Consider temporary mitigation measures"])
        else if has_high then
          ("High",
           "Significant defects detected: "
           ++ join_set (distinct defect_types) ++ ". ",
           ["Schedule professional assessment within 2 weeks";
            "Monitor affected areas for changes";
            "Obtain repair estimates"])
        else if Nat.ltb 5 (List.length defects) then
          ("Moderate",
           "Multiple minor defects detected ("
           ++ str_of_nat (List.length defects) ++ " total). ",
           ["Create prioritized maintenance list";
            "Address highest confidence issues first";
            "Schedule routine inspection"])
        else
          ("Low",
           "Minor issues detected: "
           ++ join_set (distinct defect_types) ++ ". ",
           ["Include in regular maintenance schedule";
            "Monitor for deterioration"]) in
      let age_note :=
        if truthy_context user_context then
          match user_context with
          | Some c =>
              let age := Py.get (uc_building_age c) "" in
              match age with
              | EmptyString => false
              | _ => str_contains "pre_1970" age
                     || str_contains "before 1970" (Py.lower age)
              end
          | None => false
          end
        else false in
      {| la_risk_explanation :=
           if age_note
           then explanation ++ "Building age increases risk profile. "
           else explanation;
         la_severity_assessment := severity;
         la_recommended_actions :=
           if age_note
           then (actions ++ ["Consider comprehensive structural assessment"])%list
           else actions;
         la_confidence_score := Py.round2 avg_confidence;
         la_anomaly_detected :=
           Nat.ltb 10 (List.length defects) || Py.ltb (9 # 10) max_confidence |}
  end.

(** The world of a process that can import [snowflake_analytics] but has
    no Snowflake session ([SNOWFLAKE_ENABLED] unset):
    [analyze_with_cortex] is [_local_analysis]. *)
Definition local_fallback_world : World :=
  {| snowflake_importable := true;
     analyze_with_cortex := fun defects user_context =>
       Some {| risk_explanation :=
                 la_risk_explanation (_local_analysis defects user_context);
               cortex_recommended_actions :=
                 la_recommended_actions (_local_analysis defects user_context) |} |}.

End LocalFallback.

(* ------------------------------------------------------------------ *)
(** ** Vocabulary of the properties, and sample inputs *)

Local Open Scope string_scope.

(** The three components of what [calculate_score] returns here. *)
Definition outcome {A S E} (x : result A * S * E) : result A := fst (fst x).

Definition scorer_after {A S E} (x : result A * S * E) : S := snd (fst x).

Definition effects {A S E} (x : result A * S * E) : E := snd x.

(** A list of numbers. *)
Definition is_number (v : value) : bool :=
  match v with
  | VNum _ => true
  | _ => false
  end.

Definition number_list (v : value) : bool :=
  match v with
  | VList items => forallb is_number items
  | _ => false
  end.

(** Where the scorer looks at the box of a detection (no
    affected_area_percent), the box is absent or a list of numbers. *)
Definition box_of_numbers (d : Defect) : bool :=
  match d_affected_area_percent d, d_bbox d with
  | None, Some bbox => number_list bbox
  | _, _ => true
  end.

(** The data model's ranges for a detection: confidence in [[0,1]],
    affected_area_percent in [[0,100]], a box of numbers with [x1 <= x2],
    [y1 <= y2]. *)
Definition in_range (d : Defect) : bool :=
  let c := Py.get (d_confidence d) (1 # 2) in
  Py.leb 0 c && Py.leb c 1 &&
  match d_affected_area_percent d with
  | Some a => Py.leb 0 a && Py.leb a 100
  | None =>
      match d_bbox d with
      | Some bbox =>
          number_list bbox &&
          match Py.numbers_of bbox with
          | [x1; y1; x2; y2] => Py.leb x1 x2 && Py.leb y1 y2
          | _ => true
          end
      | None => true
      end
  end.

(** The scorer's configuration as the specification fixes it: scores start
    from 100, the cap is not negative, the confidence weight is a share. *)
Definition sane_config (self : RiskScorer) : Prop :=
  base_score self == 100 /\ 0 <= max_defects_penalty self /\
  0 <= confidence_weight self /\ confidence_weight self <= 1.

(** The detection reads [image_area]: no affected_area_percent, and a box
    (its own or the default) of four coordinates. *)
Definition reads_image_area (d : Defect) : bool :=
  match d_affected_area_percent d with
  | Some _ => false
  | None =>
      match Py.get (d_bbox d) (Py.box [0; 0; 0; 0]) with
      | VList [VNum _; VNum _; VNum _; VNum _] => true
      | _ => false
      end
  end.

(** The boxes of the detections are lists of numbers. *)
Definition boxes_of_numbers (defects : list Defect) : Prop :=
  Forall (fun d => box_of_numbers d = true) defects.

(** The area step of the detection is defined: its box is a list of
    numbers where the scorer looks at it, and no division by a zero area is
    needed. *)
Definition area_defined (image_area : Z) (d : Defect) : Prop :=
  box_of_numbers d = true /\
  (image_area <> 0%Z \/ reads_image_area d = false).

(** The area factor as a number, for the cases where no exception occurs. *)
Definition area_factor_value (image_area : Z) (d : Defect) : Q :=
  match d_affected_area_percent d with
  | Some a => a / 10
  | None =>
      match Py.get (d_bbox d) (Py.box [0; 0; 0; 0]) with
      | VList [VNum b0; VNum b1; VNum b2; VNum b3] =>
          (b2 - b0) * (b3 - b1) / inject_Z image_area * 10
      | _ => 1
      end
  end.

(** The penalty of one detection as a number: what [defect_penalty]
    returns when it does not raise (lemma [defect_penalty_eq]). *)
Definition penalty_value (self : RiskScorer) (adj : dict Q) (image_area : Z)
    (d : Defect) : Q :=
  (severity (weight_of (defect_class_of d)) * 3
   + area_factor_value image_area d
     * area_multiplier (weight_of (defect_class_of d)))
  * confidence_factor self (Py.get (d_confidence d) (1 # 2))
  * dict_get adj (defect_class_of d) 1.

(** The raw defect total: the sum of the penalties of the detections. *)
Definition total_value (self : RiskScorer) (adj : dict Q) (image_area : Z)
    (defects : list Defect) : Q :=
  fold_right Qplus 0 (map (penalty_value self adj image_area) defects).

(** Lines 153-154: the climate table selected by the context. *)
Definition climate_adjustments_of (user_context : option UserContext) : dict Q :=
  dict_get CLIMATE_FACTORS (climate_of user_context) [].

(** [clamp(x, lo, hi)] as the specification writes the final score. *)
Definition clamp (x lo hi : Q) : Q := Qmax lo (Qmin x hi).

(** Line 207 on a raw defect total and an age penalty. *)
Definition capped_defect_penalty (self : RiskScorer) (raw age : Q) : Q :=
  Py.min (raw + age - age) (max_defects_penalty self).

(** Lines 208-212: the final score from the same two numbers. *)
Definition final_score_of (self : RiskScorer) (raw age : Q) : Z :=
  Py.round (Py.max 0 (base_score self - (capped_defect_penalty self raw age + age))).

(** Lines 148-150: the accumulators before the loop. *)
Definition loop_start : LoopState :=
  {| ls_total_penalty := 0; ls_breakdown := []; ls_penalty_by_type := [] |}.

(** No Snowflake module, no Cortex answer. *)
Definition offline_world : World :=
  {| snowflake_importable := false; analyze_with_cortex := fun _ _ => None |}.

(** Snowflake is importable and Cortex answers [reply]. *)
Definition cortex_world (reply : string) : World :=
  {| snowflake_importable := true;
     analyze_with_cortex := fun _ _ =>
       Some {| risk_explanation := reply; cortex_recommended_actions := [] |} |}.

Definition mold_detection : Defect :=
  {| d_class := Some "mold"; d_confidence := Some (9 # 10);
     d_bbox := None; d_affected_area_percent := Some 6%Q |}.

Definition crack_detection : Defect :=
  {| d_class := Some "crack"; d_confidence := Some (9 # 10);
     d_bbox := Some (Py.box [0; 0; 10; 10]%Q); d_affected_area_percent := None |}.



Definition hot_humid_context : option UserContext :=
  Some {| uc_climate := Some "hot_humid"; uc_building_age := None |}.

Definition pre_1950_context : option UserContext :=
  Some {| uc_climate := None; uc_building_age := Some "pre_1950" |}.

(** The arithmetic mean of a list of scores. *)
Definition mean_score (scores : list Z) : Q :=
  inject_Z (fold_right Z.add 0%Z scores)
  / inject_Z (Z.of_nat (List.length scores)).

(** The frame carries the keys that [aggregate_scores] subscripts. *)
Definition has_score (fs : FrameScore) : bool :=
  match fs_score fs with
  | Some _ => true
  | None => false
  end.

Definition has_defect_count (fs : FrameScore) : bool :=
  match fs_defect_count fs with
  | Some _ => true
  | None => false
  end.

Definition has_score_and_count (fs : FrameScore) : bool :=
  has_score fs && has_defect_count fs.

(** The scores, the defect counts and the breakdowns of frames, read with
    defaults where a key is absent. *)
Definition score_of_frame (fs : FrameScore) : Z := Py.get (fs_score fs) 0%Z.

Definition count_of_frame (fs : FrameScore) : Z :=
  Py.get (fs_defect_count fs) 0%Z.

Definition breakdown_of_frame (fs : FrameScore) : list BreakdownItem :=
  Py.get (fs_breakdown fs) [].

(** A per-frame result with a given score and defect count, as
    [calculate_score] returns it. *)
Definition frame_with_score (s : Z) (count : Z) : FrameScore :=
  {| fs_score := Some s; fs_breakdown := Some [];
     fs_defect_count := Some count |}.

(** The frame [{'score': s}] of the specification's example. *)
Definition score_only (s : Z) : FrameScore :=
  {| fs_score := Some s; fs_breakdown := None; fs_defect_count := None |}.

(** The session dict that [aggregate_scores] builds from the scores, the
    defect counts and the breakdowns of the frames. *)
Definition session_of (s0 : FrameScore) (rest : list FrameScore)
  : SessionAggregate :=
  let scores := map score_of_frame (s0 :: rest) in
  {| agg_score := min_Z (score_of_frame s0) (map score_of_frame rest);
     average_score := Py.round (mean_score scores);
     agg_risk_level :=
       risk_level_of (min_Z (score_of_frame s0) (map score_of_frame rest));
     frames_analyzed := Z.of_nat (List.length (s0 :: rest));
     total_defects_found :=
       fold_right Z.add 0%Z (map count_of_frame (s0 :: rest));
     defect_breakdown := flat_map breakdown_of_frame (s0 :: rest) |}.

(** The dict that [DeepAnalyzer._analyze_image] builds from a result of
    [calculate_score] and appends to the frame scores
    ([deep_analyzer.py], lines 325-331): the keys ['defects'], ['score'],
    ['risk_level'], ['breakdown'] and ['evidence_id']. *)
Definition image_result (r : ScoreResult) : FrameScore :=
  {| fs_score := Some (score r); fs_breakdown := Some (breakdown r);
     fs_defect_count := None |}.

Definition with_confidence (d : Defect) (c : Q) : Defect :=
  {| d_class := d_class d; d_confidence := Some c; d_bbox := d_bbox d;
     d_affected_area_percent := d_affected_area_percent d |}.




(** The fields of a result that the scorer computes itself. *)
Definition computed_part (r : ScoreResult) :=
  (score r, risk_level r, defect_count r, total_penalty r,
   penalty_breakdown r, breakdown r, summary r, user_context_applied r).

Definition same_computed_part (o1 o2 : result ScoreResult) : Prop :=
  match o1, o2 with
  | Ok r1, Ok r2 => computed_part r1 = computed_part r2
  | Raise e1, Raise e2 => e1 = e2
  | _, _ => False
  end.

(** [RiskScorer(enable_cortex_ai=False)] *)
Definition quiet_RiskScorer : RiskScorer :=
  {| base_score := 100; max_defects_penalty := 70;
     confidence_weight := 8 # 10; enable_cortex_ai := false;
     cortex_analytics := false |}.

(** The window averages as the specification words them: the average of
    the first [n] and of the last [n] area samples. *)
Definition first_samples (n : nat) (xs : list Q) : list Q := firstn n xs.

Definition last_samples (n : nat) (xs : list Q) : list Q :=
  rev (firstn n (rev xs)).

Definition average (xs : list Q) (n : nat) : Q :=
  fold_right Qplus 0 xs / inject_Z (Z.of_nat n).

Definition track_with_areas (xs : list Q) : DefectTrack :=
  {| track_id := 1; defect_class := "crack"; first_frame := 1;
     last_frame := Z.of_nat (List.length xs);
     frames_seen := Z.of_nat (List.length xs); max_confidence := 9 # 10;
     areas := xs; bboxes := [] |}.

(** What [update] raises on a detection whose area it cannot take, in
    the order in which lines 77-78 meet the defect: no ['bbox'] key, a
    value that cannot be subscripted, a missing item, items that cannot be
    subtracted. *)
Definition box_defect (det : Defect) : option exn :=
  match d_bbox det with
  | None => Some (KeyError "bbox")
  | Some bbox =>
      match bbox_area bbox with
      | Ok _ => None
      | Raise e => Some e
      end
  end.

(** The tracker after [update([crack_detection], 1)] on a new tracker. *)
Definition tracker_after_first_frame : TemporalTracker :=
  fst (update [crack_detection] 1 new_TemporalTracker).

(** Two outcomes that agree: the same exception, or equal numbers. *)
Definition result_Qeq (r1 r2 : result Q) : Prop :=
  match r1, r2 with
  | Ok q1, Ok q2 => q1 == q2
  | Raise e1, Raise e2 => e1 = e2
  | _, _ => False
  end.

(** The overlap of the intervals [[lo, hi]] and [[lo', hi']] as
    [calculate_iou] computes it on each axis. *)
Definition overlap (lo hi lo' hi' : Q) : Q :=
  Py.max 0 (Py.min hi hi' - Py.max lo lo').

(** A detection that [update] can read in full: it has a class, a
    confidence and a box of at least four coordinates. *)
Definition trackable (det : Defect) : bool :=
  match d_class det, d_confidence det, d_bbox det with
  | Some _, Some _, Some bbox =>
      number_list bbox && Nat.leb 4 (List.length (Py.numbers_of bbox))
  | _, _, _ => false
  end.

(** [(bbox[2] - bbox[0]) * (bbox[3] - bbox[1])] as a number. *)
Definition box_area_value (bbox : list Q) : Q :=
  (nth 2 bbox 0 - nth 0 bbox 0) * (nth 3 bbox 0 - nth 1 bbox 0).

(** The track that lines 114-123 build for a trackable detection. *)
Definition created_track (frame_id id : Z) (det : Defect) : DefectTrack :=
  {| track_id := id;
     defect_class := Py.get (d_class det) "";
     first_frame := frame_id;
     last_frame := frame_id;
     frames_seen := 1;
     max_confidence := Py.get (d_confidence det) 0;
     areas := [box_area_value (Py.numbers_of (Py.get (d_bbox det) VNone))];
     bboxes := [Py.numbers_of (Py.get (d_bbox det) VNone)] |}.

Fixpoint created_tracks (frame_id id : Z) (dets : list Defect)
  : list DefectTrack :=
  match dets with
  | [] => []
  | det :: rest =>
      created_track frame_id id det :: created_tracks frame_id (id + 1) rest
  end.

(** Detections in non-increasing order of confidence. *)
Definition by_descending_confidence (dets : list Defect) : Prop :=
  StronglySorted
    (fun d d' => Py.get (d_confidence d') 0 <= Py.get (d_confidence d) 0) dets.

(** The shape of a track that has been created and never matched. *)
Definition unmatched_shape (t : DefectTrack) : Prop :=
  frames_seen t = 1%Z /\ first_frame t = last_frame t /\
  List.length (areas t) = 1%nat /\ List.length (bboxes t) = 1%nat.

(** Identifiers [id, id + 1, ..., id + n - 1]. *)
Fixpoint ids_from (id : Z) (n : nat) : list Z :=
  match n with
  | O => []
  | S n' => id :: ids_from (id + 1) n'
  end.

(** Track identifiers increase along the history and stay below
    [next_id]. *)
Definition ids_ok (s : TemporalTracker) : Prop :=
  StronglySorted Z.lt (map track_id (tracks s)) /\
  Forall (fun t => (track_id t < next_id s)%Z) (tracks s).

(** The trackers that [TemporalTracker(iou_threshold, max_dropout)] and
    any sequence of [update] calls can produce. *)
Inductive reachable (iou : Q) (dropout : Z) : TemporalTracker -> Prop :=
| reach_new :
    reachable iou dropout
      {| tracks := []; next_id := 1; iou_threshold := iou;
         max_dropout := dropout |}
| reach_update (s : TemporalTracker) (detections : list Defect) (frame_id : Z) :
    reachable iou dropout s ->
    reachable iou dropout (fst (update detections frame_id s)).

(** Frame identifiers that are each more than [dropout] after the one
    before, the first one more than [dropout] after [prev]. *)
Fixpoint well_spaced (dropout prev : Z) (frames : list (list Defect * Z))
  : Prop :=
  match frames with
  | [] => True
  | (_, frame_idx) :: rest =>
      (dropout < frame_idx - prev)%Z /\ well_spaced dropout frame_idx rest
  end.

Definition with_class (d : Defect) (cls : string) : Defect :=
  {| d_class := Some cls; d_confidence := d_confidence d; d_bbox := d_bbox d;
     d_affected_area_percent := d_affected_area_percent d |}.

(** The numbers and texts of a result that depend neither on Cortex nor on
    whether a context was passed. *)
Definition numbers (r : ScoreResult) :=
  (score r, risk_level r, defect_count r, total_penalty r,
   penalty_breakdown r, breakdown r, summary r).

Definition same_numbers (o1 o2 : result ScoreResult) : Prop :=
  match o1, o2 with
  | Ok r1, Ok r2 => numbers r1 = numbers r2
  | Raise e1, Raise e2 => e1 = e2
  | _, _ => False
  end.

(** The context selects no climate adjustment and no age penalty: each key
    is absent, unknown to the table, or the neutral entry. *)
Definition neutral_context (user_context : option UserContext) : Prop :=
  match user_context with
  | None => True
  | Some c =>
      (forall k, uc_climate c = Some k ->
                 dict_find CLIMATE_FACTORS k = None \/ k = "temperate") /\
      (forall k, uc_building_age c = Some k ->
                 dict_find AGE_FACTORS k = None \/ k = "post_2010")
  end.













(** Two outcomes of [aggregate_scores] that differ at most in the order of
    [defect_breakdown]. *)
Definition same_aggregate (o o' : result AggregateResult) : Prop :=
  match o, o' with
  | Ok (Session a), Ok (Session a') =>
      agg_score a = agg_score a' /\
      average_score a = average_score a' /\
      agg_risk_level a = agg_risk_level a' /\
      frames_analyzed a = frames_analyzed a' /\
      total_defects_found a = total_defects_found a' /\
      Permutation (defect_breakdown a) (defect_breakdown a')
  | Ok (NoFrames r), Ok (NoFrames r') => r = r'
  | Raise e, Raise e' => e = e'
  | _, _ => False
  end.

Local Close Scope string_scope.

(* ================================================================== *)
(** * Properties *)

(** ** Facts about the Python built-ins *)

Module PyFacts.

Lemma ltb_true (x y : Q) : Py.ltb x y = true <-> x < y.
Proof.
  unfold Py.ltb. rewrite negb_true_iff.
  split; intro H.
  - apply Qnot_le_lt. intro Hle. apply Qle_bool_iff in Hle. congruence.
  - destruct (Qle_bool y x) eqn:E; [|reflexivity].
    apply Qle_bool_iff in E. lra.
Qed.

Lemma ltb_false (x y : Q) : Py.ltb x y = false <-> y <= x.
Proof.
  unfold Py.ltb. rewrite negb_false_iff. apply Qle_bool_iff.
Qed.

Lemma eqb_true (x y : Q) : Py.eqb x y = true <-> x == y.
Proof. apply Qeq_bool_iff. Qed.

Lemma eqb_false (x y : Q) : Py.eqb x y = false <-> ~ x == y.
Proof.
  unfold Py.eqb. split; intro H.
  - intro E. apply Qeq_bool_iff in E. congruence.
  - destruct (Qeq_bool x y) eqn:E; [|reflexivity].
    apply Qeq_bool_iff in E. contradiction.
Qed.

Lemma min_Qmin (a b : Q) : Py.min a b == Qmin a b.
Proof.
  unfold Py.min. destruct (Py.ltb b a) eqn:E.
  - apply ltb_true in E. rewrite Q.min_r; lra.
  - apply ltb_false in E. rewrite Q.min_l; lra.
Qed.

Lemma max_Qmax (a b : Q) : Py.max a b == Qmax a b.
Proof.
  unfold Py.max. destruct (Py.ltb a b) eqn:E.
  - apply ltb_true in E. rewrite Q.max_r; lra.
  - apply ltb_false in E. rewrite Q.max_l; lra.
Qed.

Lemma min_cases (a b : Q) :
  (b < a /\ Py.min a b = b) \/ (a <= b /\ Py.min a b = a).
Proof.
  unfold Py.min. destruct (Py.ltb b a) eqn:E.
  - left. apply ltb_true in E. auto.
  - right. apply ltb_false in E. auto.
Qed.

Lemma max_cases (a b : Q) :
  (a < b /\ Py.max a b = b) \/ (b <= a /\ Py.max a b = a).
Proof.
  unfold Py.max. destruct (Py.ltb a b) eqn:E.
  - left. apply ltb_true in E. auto.
  - right. apply ltb_false in E. auto.
Qed.

Lemma min_le_compat (a a' b : Q) : a <= a' -> Py.min a b <= Py.min a' b.
Proof.
  intro H.
  destruct (min_cases a b) as [[? ->]|[? ->]];
    destruct (min_cases a' b) as [[? ->]|[? ->]]; lra.
Qed.

Lemma max_le_compat (a b b' : Q) : b <= b' -> Py.max a b <= Py.max a b'.
Proof.
  intro H.
  destruct (max_cases a b) as [[? ->]|[? ->]];
    destruct (max_cases a b') as [[? ->]|[? ->]]; lra.
Qed.

Lemma compare_Eq (p q : Q) : Qcompare p q = Eq -> p == q.
Proof. apply Qeq_alt. Qed.
Lemma compare_Lt (p q : Q) : Qcompare p q = Lt -> p < q.
Proof. apply Qlt_alt. Qed.
Lemma compare_Gt (p q : Q) : Qcompare p q = Gt -> q < p.
Proof. apply Qgt_alt. Qed.

Ltac order_of H :=
  first [ apply compare_Eq in H | apply compare_Lt in H
        | apply compare_Gt in H ].

(** The fractional part that [round] inspects lies in [[0, 1)]. *)
Lemma frac_bounds (x : Q) :
  0 <= x - inject_Z (Qfloor x) /\ x - inject_Z (Qfloor x) < 1.
Proof.
  pose proof (Qfloor_le x) as Hl. pose proof (Qlt_floor x) as Hu.
  rewrite inject_Z_plus in Hu. change (inject_Z 1) with 1 in Hu. lra.
Qed.

Lemma round_floor_or_succ (x : Q) :
  Py.round x = Qfloor x \/ Py.round x = (Qfloor x + 1)%Z.
Proof.
  unfold Py.round.
  destruct (Qcompare (x - inject_Z (Qfloor x)) (1 # 2)); auto.
  destruct (Z.even (Qfloor x)); auto.
Qed.

(** [round] returns an integer at distance at most one half. *)
Lemma round_near (x : Q) :
  inject_Z (Py.round x) - (1 # 2) <= x /\ x <= inject_Z (Py.round x) + (1 # 2).
Proof.
  pose proof (frac_bounds x) as [H0 H1].
  unfold Py.round.
  destruct (Qcompare (x - inject_Z (Qfloor x)) (1 # 2)) eqn:E.
  - order_of E.
    destruct (Z.even (Qfloor x));
      rewrite ?inject_Z_plus; change (inject_Z 1) with 1; lra.
  - order_of E. lra.
  - order_of E.
    rewrite inject_Z_plus; change (inject_Z 1) with 1. lra.
Qed.

#[export] Instance round_comp : Proper (Qeq ==> eq) Py.round.
Proof.
  intros x y Hxy. unfold Py.round.
  rewrite (Qfloor_comp _ _ Hxy).
  assert (Hc : Qcompare (x - inject_Z (Qfloor y)) (1 # 2)
               = Qcompare (y - inject_Z (Qfloor y)) (1 # 2)).
  { apply Qcompare_comp; [rewrite Hxy|]; reflexivity. }
  rewrite Hc. reflexivity.
Qed.






Lemma round_Z (z : Z) : Py.round (inject_Z z) = z.
Proof.
  unfold Py.round. rewrite Qfloor_Z.
  assert (E : Qcompare (inject_Z z - inject_Z z) (1 # 2) = Lt).
  { rewrite <- Qlt_alt. lra. }
  rewrite E. reflexivity.
Qed.

(** [round] is monotone. *)
Lemma round_mono (x y : Q) : x <= y -> (Py.round x <= Py.round y)%Z.
Proof.
  intro Hxy.
  pose proof (Qfloor_resp_le _ _ Hxy) as Hf.
  destruct (Z.eq_dec (Qfloor x) (Qfloor y)) as [Heq|Hne].
  - unfold Py.round. rewrite Heq.
    destruct (Qcompare (x - inject_Z (Qfloor y)) (1 # 2)) eqn:Ex;
      destruct (Qcompare (y - inject_Z (Qfloor y)) (1 # 2)) eqn:Ey;
      try (destruct (Z.even (Qfloor y))); try lia;
      order_of Ex; order_of Ey; exfalso; lra.
  - destruct (round_floor_or_succ x) as [-> | ->];
      destruct (round_floor_or_succ y) as [-> | ->]; lia.
Qed.

Lemma sum_acc (xs : list Q) (a : Q) :
  fold_left Qplus xs a == a + fold_right Qplus 0 xs.
Proof.
  revert a. induction xs as [|x xs IH]; intro a; simpl.
  - lra.
  - rewrite IH. lra.
Qed.

Lemma sum_fold_right (xs : list Q) : Py.sum xs == fold_right Qplus 0 xs.
Proof. unfold Py.sum. rewrite sum_acc. lra. Qed.

Lemma index_Some {A} (xs : list A) (i : nat) (x : A) :
  nth_error xs i = Some x -> Py.index xs i = Ok x.
Proof. unfold Py.index. intros ->. reflexivity. Qed.

Lemma index_short {A} (xs : list A) (i : nat) :
  (List.length xs <= i)%nat -> Py.index xs i = Raise IndexError.
Proof.
  unfold Py.index. intro H. apply nth_error_None in H. rewrite H. reflexivity.
Qed.

Lemma div_nonzero (a b : Q) : ~ b == 0 -> Py.div a b = Ok (a / b).
Proof.
  intro H. unfold Py.div. apply eqb_false in H. rewrite H. reflexivity.
Qed.

End PyFacts.
Import PyFacts.

(* ------------------------------------------------------------------ *)
(** ** The scorer: what the loop computes *)

(** *** Lists of numbers as values *)

Lemma leading_numbers_map (l : list Q) : Py.leading_numbers (map VNum l) = l.
Proof.
  induction l as [|q l IH]; simpl; [reflexivity|]. rewrite IH. reflexivity.
Qed.

Lemma numbers_of_box (l : list Q) : Py.numbers_of (Py.box l) = l.
Proof. apply leading_numbers_map. Qed.

Lemma number_list_box (v : value) :
  number_list v = true -> v = Py.box (Py.numbers_of v).
Proof.
  destruct v as [|q|s|items|items]; simpl; try discriminate.
  intro H. unfold Py.box. f_equal.
  induction items as [|x items IH]; simpl in *; [reflexivity|].
  apply andb_true_iff in H. destruct H as [Hx Hrest].
  destruct x; simpl in Hx; try discriminate.
  simpl. rewrite <- (IH Hrest). reflexivity.
Qed.

Lemma box_number_list (l : list Q) : number_list (Py.box l) = true.
Proof.
  unfold Py.box. simpl. induction l as [|q l IH]; simpl; [reflexivity|exact IH].
Qed.

Lemma len_box (l : list Q) : Py.len (Py.box l) = Ok (List.length l).
Proof. unfold Py.box. simpl. rewrite length_map. reflexivity. Qed.

Lemma item_box (l : list Q) (i : nat) :
  Py.item (Py.box l) i
  = match nth_error l i with
    | Some q => Ok (VNum q)
    | None => Raise IndexError
    end.
Proof.
  unfold Py.box, Py.item, Py.index. rewrite nth_error_map.
  destruct (nth_error l i); reflexivity.
Qed.

(** The box that the scorer looks at is a list of numbers. *)
Lemma scorer_box (d : Defect) :
  box_of_numbers d = true -> d_affected_area_percent d = None ->
  Py.get (d_bbox d) (Py.box [0; 0; 0; 0])
  = Py.box (Py.numbers_of (Py.get (d_bbox d) (Py.box [0; 0; 0; 0]))).
Proof.
  unfold box_of_numbers. intros H Ha. rewrite Ha in H.
  destruct (d_bbox d) as [v|]; simpl.
  - apply number_list_box. exact H.
  - reflexivity.
Qed.

Lemma in_range_box (d : Defect) : in_range d = true -> box_of_numbers d = true.
Proof.
  unfold in_range, box_of_numbers. intro H.
  apply andb_true_iff in H. destruct H as [_ H].
  destruct (d_affected_area_percent d); [reflexivity|].
  destruct (d_bbox d) as [v|]; [|reflexivity].
  apply andb_true_iff in H. destruct H as [H _]. exact H.
Qed.

(** *** Exceptions of the built-ins *)






Section ScorerLoop.

Variable self : RiskScorer.
Variable adj : dict Q.
Variable image_area : Z.

Lemma inject_Z_nonzero (z : Z) : z <> 0%Z -> ~ inject_Z z == 0.
Proof.
  intros Hz H. apply Hz. unfold Qeq in H. simpl in H. lia.
Qed.

Lemma area_factor_eq (d : Defect) :
  area_defined image_area d ->
  area_factor image_area d = Ok (area_factor_value image_area d).
Proof.
  unfold area_defined. intros [Hbox Hok]. revert Hok.
  unfold area_factor, area_factor_value, reads_image_area.
  destruct (d_affected_area_percent d) as [a|] eqn:Ha; [reflexivity|].
  rewrite (scorer_box d Hbox Ha).
  generalize (Py.numbers_of (Py.get (d_bbox d) (Py.box [0; 0; 0; 0]))).
  intro l. rewrite len_box.
  destruct l as [|b0 [|b1 [|b2 [|b3 [|b4 l]]]]]; simpl; try reflexivity.
  intros [Hz | Hr]; [|discriminate].
  rewrite div_nonzero by (apply inject_Z_nonzero; exact Hz).
  reflexivity.
Qed.


Lemma area_factor_zero_area (d : Defect) :
  image_area = 0%Z -> reads_image_area d = true ->
  area_factor image_area d = Raise ZeroDivisionError.
Proof.
  unfold area_factor, reads_image_area. intros -> H.
  destruct (d_affected_area_percent d) as [a|]; [discriminate|].
  destruct (Py.get (d_bbox d) (Py.box [0; 0; 0; 0])) as [|q|s|items|items];
    try discriminate.
  destruct items as [|[|b0| | | ] [|[|b1| | | ] [|[|b2| | | ] [|[|b3| | | ] [|b4 l]]]]];
    try discriminate.
  reflexivity.
Qed.

Lemma defect_penalty_eq (d : Defect) :
  area_defined image_area d ->
  defect_penalty self adj image_area d
  = Ok (penalty_value self adj image_area d).
Proof.
  intro H. unfold defect_penalty. rewrite (area_factor_eq d H). reflexivity.
Qed.

(** On boxes of numbers the penalty step raises nothing but
    [ZeroDivisionError]. *)
Lemma defect_penalty_raises (d : Defect) (e : exn) :
  box_of_numbers d = true ->
  defect_penalty self adj image_area d = Raise e -> e = ZeroDivisionError.
Proof.
  intro Hbox. destruct (Z.eq_dec image_area 0) as [Hz|Hz].
  - destruct (reads_image_area d) eqn:Hr.
    + unfold defect_penalty. rewrite (area_factor_zero_area d Hz Hr).
      simpl. congruence.
    + rewrite defect_penalty_eq by (split; auto). discriminate.
  - rewrite defect_penalty_eq by (split; auto). discriminate.
Qed.



(** The loop returns normally on detections that need no division by a
    zero area, and then its running total is the sum of the penalties. *)
Lemma defects_loop_total (defects : list Defect) : forall st,
  Forall (area_defined image_area) defects ->
  exists st',
    defects_loop self adj image_area st defects = Ok st' /\
    ls_total_penalty st'
    == ls_total_penalty st + total_value self adj image_area defects.
Proof.
  induction defects as [|d rest IH]; intros st Hall.
  - exists st. split; [reflexivity|]. unfold total_value. simpl. lra.
  - inversion Hall as [|? ? Hd Hrest]; subst.
    simpl. unfold loop_body. rewrite (defect_penalty_eq d Hd). simpl.
    destruct (IH
      {| ls_total_penalty :=
           ls_total_penalty st + penalty_value self adj image_area d;
         ls_penalty_by_type :=
           dict_set (ls_penalty_by_type st) (defect_class_of d)
             (dict_get (ls_penalty_by_type st) (defect_class_of d) 0
              + penalty_value self adj image_area d);
         ls_breakdown :=
           ls_breakdown st ++
           [ {| bi_defect_type := defect_class_of d;
                bi_confidence := Py.round2 (Py.get (d_confidence d) (1 # 2));
                bi_penalty := Py.round2 (penalty_value self adj image_area d);
                bi_severity := severity (weight_of (defect_class_of d));
                bi_description := description (weight_of (defect_class_of d));
                bi_climate_adjusted :=
                  negb (Py.eqb (dict_get adj (defect_class_of d) 1) 1) |} ]
      |} Hrest) as [st' [Hloop Htot]].
    exists st'. split; [exact Hloop|].
    rewrite Htot. unfold total_value. simpl. lra.
Qed.

(** On boxes of numbers the loop raises nothing but [ZeroDivisionError]. *)
Lemma defects_loop_raises (defects : list Defect) : forall st e,
  boxes_of_numbers defects ->
  defects_loop self adj image_area st defects = Raise e ->
  e = ZeroDivisionError.
Proof.
  induction defects as [|d rest IH]; intros st e Hall H; simpl in H.
  - discriminate.
  - inversion Hall as [|? ? Hd Hrest]; subst. unfold loop_body in H.
    destruct (defect_penalty self adj image_area d) as [p|e'] eqn:Hp;
      simpl in H.
    + eapply IH; [exact Hrest | exact H].
    + apply defect_penalty_raises in Hp; [congruence | exact Hd].
Qed.



End ScorerLoop.

(** ** The scorer: tables *)

Lemma dict_get_Forall {V} (P : V -> Prop) (d : dict V) (k : string) (dflt : V) :
  Forall (fun kv => P (snd kv)) d -> P dflt -> P (dict_get d k dflt).
Proof.
  unfold dict_get. intros Hd Hdflt.
  induction Hd as [|[k' v] d' Hv Hd' IH]; simpl.
  - exact Hdflt.
  - destruct (String.eqb k' k); [exact Hv | exact IH].
Qed.

Lemma weight_positive (cls : string) :
  0 < severity (weight_of cls) /\ 0 < area_multiplier (weight_of cls).
Proof.
  unfold weight_of.
  apply (dict_get_Forall (fun w => 0 < severity w /\ 0 < area_multiplier w)).
  - unfold DEFECT_WEIGHTS. repeat constructor; simpl; lra.
  - simpl. lra.
Qed.

Lemma climate_mult_positive (user_context : option UserContext) (cls : string) :
  0 < dict_get (climate_adjustments_of user_context) cls 1.
Proof.
  apply (dict_get_Forall (fun m => 0 < m)); [|lra].
  unfold climate_adjustments_of.
  apply (dict_get_Forall (fun adj => Forall (fun kv => 0 < snd kv) adj)).
  - unfold CLIMATE_FACTORS. repeat constructor; simpl; lra.
  - constructor.
Qed.

Lemma age_penalty_nonneg (user_context : option UserContext) :
  0 <= age_penalty_of user_context.
Proof.
  unfold age_penalty_of.
  destruct user_context as [c|]; [|lra].
  destruct (uc_building_age c) as [k|]; [|lra].
  apply (dict_get_Forall (fun a => 0 <= a)); [|lra].
  unfold AGE_FACTORS. repeat constructor; simpl; lra.
Qed.

Lemma age_penalty_guard (user_context : option UserContext) :
  (if truthy_context user_context then age_penalty_of user_context else 0)
  = age_penalty_of user_context.
Proof.
  destruct user_context as [[cl [age|]]|]; simpl; try reflexivity;
    destruct cl; reflexivity.
Qed.

(** ** The scorer: penalties of detections within the data model *)

Lemma leb_true (x y : Q) : Py.leb x y = true <-> x <= y.
Proof. apply Qle_bool_iff. Qed.

Lemma area_factor_value_nonneg (image_area : Z) (d : Defect) :
  (0 < image_area)%Z -> in_range d = true ->
  0 <= area_factor_value image_area d.
Proof.
  intros Hia Hr. unfold in_range in Hr. unfold area_factor_value.
  apply andb_true_iff in Hr. destruct Hr as [_ Hr].
  destruct (d_affected_area_percent d) as [a|].
  - apply andb_true_iff in Hr. destruct Hr as [Ha _].
    apply leb_true in Ha. apply Qle_shift_div_l; lra.
  - assert (Hpos : 0 < inject_Z image_area).
    { change 0 with (inject_Z 0). rewrite <- Zlt_Qlt. exact Hia. }
    assert (Hbox : forall b0 b1 b2 b3, b0 <= b2 -> b1 <= b3 ->
              0 <= (b2 - b0) * (b3 - b1) / inject_Z image_area * 10).
    { intros b0 b1 b2 b3 H02 H13.
      apply Qmult_le_0_compat; [|lra].
      apply Qle_shift_div_l; [exact Hpos|].
      setoid_replace (0 * inject_Z image_area) with 0 by ring.
      apply Qmult_le_0_compat; lra. }
    destruct (d_bbox d) as [v|]; simpl.
    + apply andb_true_iff in Hr. destruct Hr as [Hnum Hr].
      rewrite (number_list_box v Hnum).
      destruct (Py.numbers_of v) as [|b0 [|b1 [|b2 [|b3 [|b4 l]]]]];
        simpl; try lra.
      apply andb_true_iff in Hr. destruct Hr as [H02 H13].
      apply leb_true in H02. apply leb_true in H13. apply Hbox; assumption.
    + apply Hbox; lra.
Qed.

Lemma confidence_factor_nonneg (self : RiskScorer) (c : Q) :
  sane_config self -> 0 <= c -> 0 <= confidence_factor self c.
Proof.
  intros (_ & _ & Hw0 & Hw1) Hc. unfold confidence_factor.
  pose proof (Qmult_le_0_compat _ _ Hc Hw0). lra.
Qed.

Lemma penalty_value_nonneg (self : RiskScorer) (image_area : Z)
    (user_context : option UserContext) (d : Defect) :
  sane_config self -> (0 < image_area)%Z -> in_range d = true ->
  0 <= penalty_value self (climate_adjustments_of user_context) image_area d.
Proof.
  intros Hcfg Hia Hr. unfold penalty_value.
  pose proof (weight_positive (defect_class_of d)) as [Hs Hm].
  pose proof (climate_mult_positive user_context (defect_class_of d)) as Hc.
  pose proof (area_factor_value_nonneg image_area d Hia Hr) as Ha.
  assert (Hconf : 0 <= Py.get (d_confidence d) (1 # 2)).
  { unfold in_range in Hr. apply andb_true_iff in Hr. destruct Hr as [Hr _].
    apply andb_true_iff in Hr. destruct Hr as [Hr _]. apply leb_true in Hr.
    exact Hr. }
  pose proof (confidence_factor_nonneg self _ Hcfg Hconf) as Hcf.
  repeat apply Qmult_le_0_compat; try lra.
  pose proof (Qmult_le_0_compat _ _ Ha (Qlt_le_weak _ _ Hm)). lra.
Qed.

Lemma total_value_nonneg (self : RiskScorer) (image_area : Z)
    (user_context : option UserContext) (defects : list Defect) :
  sane_config self -> (0 < image_area)%Z ->
  Forall (fun d => in_range d = true) defects ->
  0 <= total_value self (climate_adjustments_of user_context) image_area defects.
Proof.
  intros Hcfg Hia Hall. unfold total_value.
  induction Hall as [|d rest Hd _ IH]; simpl.
  - lra.
  - pose proof (penalty_value_nonneg self image_area user_context d Hcfg Hia Hd).
    lra.
Qed.

(** ** The scorer: from the loop's total to the result *)

Lemma calculate_score_computed (self : RiskScorer) (w : World)
    (d : Defect) (rest : list Defect) (image_area : Z)
    (user_context : option UserContext) (st : LoopState) :
  defects_loop self (climate_adjustments_of user_context) image_area
    loop_start (d :: rest) = Ok st ->
  exists r,
    outcome (calculate_score self w (d :: rest) image_area user_context) = Ok r /\
    score r = final_score_of self (ls_total_penalty st)
                (age_penalty_of user_context) /\
    risk_level r = risk_level_of (score r) /\
    summary r = summary_of (score r) /\
    defect_count r = Z.of_nat (List.length (d :: rest)) /\
    pb_defects (penalty_breakdown r)
    = Py.round2 (capped_defect_penalty self (ls_total_penalty st)
                   (age_penalty_of user_context)) /\
    pb_age_factor (penalty_breakdown r)
    = Py.round2 (age_penalty_of user_context) /\
    breakdown r = ls_breakdown st /\
    total_penalty r
    = Some (Py.round2 (capped_defect_penalty self (ls_total_penalty st)
                         (age_penalty_of user_context)
                       + age_penalty_of user_context)) /\
    user_context_applied r
    = Some (match user_context with Some _ => true | None => false end).
Proof.
  intro Hloop. unfold calculate_score.
  fold (climate_adjustments_of user_context). fold loop_start.
  rewrite Hloop. rewrite age_penalty_guard.
  destruct (cortex_insights self w (d :: rest) user_context _)
    as [[[self' ai] acts] fx].
  eexists. unfold outcome. simpl. repeat split; reflexivity.
Qed.

Lemma calculate_score_raises (self : RiskScorer) (w : World)
    (defects : list Defect) (image_area : Z)
    (user_context : option UserContext) (e : exn) :
  boxes_of_numbers defects ->
  outcome (calculate_score self w defects image_area user_context) = Raise e ->
  e = ZeroDivisionError.
Proof.
  intro Hall. unfold calculate_score. destruct defects as [|d rest]; [discriminate|].
  destruct (defects_loop _ _ _ _ (d :: rest)) as [st|e'] eqn:Hloop.
  - destruct (cortex_insights self w (d :: rest) user_context _)
      as [[[self' ai] acts] fx].
    discriminate.
  - unfold outcome. simpl. intro H. injection H as <-.
    eapply defects_loop_raises; [exact Hall | exact Hloop].
Qed.


Lemma Qmin_comp (a a' b b' : Q) : a == a' -> b == b' -> Qmin a b == Qmin a' b'.
Proof.
  intros Ha Hb.
  destruct (Q.min_spec a b) as [[? ->]|[? ->]];
    destruct (Q.min_spec a' b') as [[? ->]|[? ->]]; lra.
Qed.

Lemma capped_defect_penalty_Qmin (self : RiskScorer) (raw age : Q) :
  capped_defect_penalty self raw age == Qmin raw (max_defects_penalty self).
Proof.
  unfold capped_defect_penalty. rewrite min_Qmin.
  apply Qmin_comp; [ring | reflexivity].
Qed.

(** On non-negative penalties the final score is the clamp of the spec. *)
Lemma final_score_clamp (self : RiskScorer) (raw age : Q) :
  sane_config self -> 0 <= raw -> 0 <= age ->
  final_score_of self raw age
  = Py.round (clamp (100 - (Qmin raw (max_defects_penalty self) + age)) 0 100).
Proof.
  intros (Hb & Hm & _) Hraw Hage. unfold final_score_of.
  apply round_comp. unfold clamp.
  rewrite max_Qmax, capped_defect_penalty_Qmin, Hb.
  assert (H0 : 0 <= Qmin raw (max_defects_penalty self)).
  { apply Q.min_glb; assumption. }
  rewrite (Q.min_l (100 - _) 100) by lra.
  reflexivity.
Qed.

Lemma final_score_antitone (self : RiskScorer) (raw raw' age : Q) :
  raw <= raw' ->
  (final_score_of self raw' age <= final_score_of self raw age)%Z.
Proof.
  intro H. unfold final_score_of. apply round_mono.
  apply max_le_compat.
  assert (capped_defect_penalty self raw age
          <= capped_defect_penalty self raw' age).
  { unfold capped_defect_penalty. apply min_le_compat. lra. }
  lra.
Qed.

Lemma final_score_nonneg (self : RiskScorer) (raw age : Q) :
  (0 <= final_score_of self raw age)%Z.
Proof.
  unfold final_score_of. rewrite <- (round_Z 0) at 1. apply round_mono.
  change (inject_Z 0) with 0.
  match goal with
  | |- 0 <= Py.max 0 ?x => destruct (max_cases 0 x) as [[? ->]|[? ->]]; lra
  end.
Qed.

Lemma final_score_le_100 (self : RiskScorer) (raw age : Q) :
  sane_config self -> 0 <= raw -> 0 <= age ->
  (final_score_of self raw age <= 100)%Z.
Proof.
  intros Hcfg Hraw Hage.
  rewrite final_score_clamp by assumption.
  rewrite <- (round_Z 100). apply round_mono. unfold clamp.
  apply Q.max_lub; [|apply Q.le_min_r].
  change (inject_Z 100) with 100. lra.
Qed.

Lemma final_score_comp (self : RiskScorer) (raw raw' age : Q) :
  raw == raw' -> final_score_of self raw age = final_score_of self raw' age.
Proof.
  intro H. apply Z.le_antisymm; apply final_score_antitone; lra.
Qed.

(** With a non-zero image area the score of a non-empty list is the final
    score of the summed penalties. *)
Lemma calculate_score_total (self : RiskScorer) (w : World)
    (d : Defect) (rest : list Defect) (image_area : Z)
    (user_context : option UserContext) :
  Forall (area_defined image_area) (d :: rest) ->
  exists r,
    outcome (calculate_score self w (d :: rest) image_area user_context) = Ok r /\
    score r = final_score_of self
                (total_value self (climate_adjustments_of user_context)
                   image_area (d :: rest))
                (age_penalty_of user_context) /\
    risk_level r = risk_level_of (score r) /\
    pb_defects (penalty_breakdown r)
    == Py.round2 (Qmin (total_value self (climate_adjustments_of user_context)
                          image_area (d :: rest))
                    (max_defects_penalty self)) /\
    pb_age_factor (penalty_breakdown r)
    = Py.round2 (age_penalty_of user_context).
Proof.
  intro Hall.
  destruct (defects_loop_total self (climate_adjustments_of user_context)
              image_area (d :: rest) loop_start Hall) as [st [Hloop Htot]].
  destruct (calculate_score_computed self w d rest image_area user_context st
              Hloop) as (r & Hr & Hs & Hl & _ & _ & Hpd & Hpa & _).
  exists r. split; [exact Hr|]. split; [|split; [exact Hl|split; [|exact Hpa]]].
  - rewrite Hs. apply final_score_comp. rewrite Htot. simpl. lra.
  - rewrite Hpd. unfold Py.round2.
    assert (E : capped_defect_penalty self (ls_total_penalty st)
                  (age_penalty_of user_context)
                == Qmin (total_value self (climate_adjustments_of user_context)
                           image_area (d :: rest))
                     (max_defects_penalty self)).
    { rewrite capped_defect_penalty_Qmin.
      apply Qmin_comp; [|reflexivity]. rewrite Htot. simpl. lra. }
    rewrite (round_comp _ _ (Qmult_comp _ _ E _ _ (Qeq_refl 100))).
    reflexivity.
Qed.

(* ------------------------------------------------------------------ *)
(** ** The scorer and [image_area] *)



Lemma Forall_area_ok (image_area : Z) (defects : list Defect) :
  boxes_of_numbers defects ->
  image_area <> 0%Z \/ Forall (fun d => reads_image_area d = false) defects ->
  Forall (area_defined image_area) defects.
Proof.
  intros Hbox Hok. apply Forall_forall. intros d Hin. split.
  - exact (proj1 (Forall_forall _ _) Hbox d Hin).
  - destruct Hok as [Hz | Hall]; [left; exact Hz|].
    right. exact (proj1 (Forall_forall _ _) Hall d Hin).
Qed.

Lemma Forall_in_range_box (defects : list Defect) :
  Forall (fun d => in_range d = true) defects ->
  boxes_of_numbers defects.
Proof.
  intro H. eapply Forall_impl; [|exact H]. intros d. apply in_range_box.
Qed.

(** [calculate_score] returns a result whenever no division by a zero
    area is needed. *)
Lemma calculate_score_returns (self : RiskScorer) (w : World)
    (defects : list Defect) (image_area : Z)
    (user_context : option UserContext) :
  boxes_of_numbers defects ->
  image_area <> 0%Z \/ Forall (fun d => reads_image_area d = false) defects ->
  exists r,
    outcome (calculate_score self w defects image_area user_context) = Ok r.
Proof.
  intros Hbox Hok. destruct defects as [|d rest].
  - exists base_result. reflexivity.
  - destruct (calculate_score_total self w d rest image_area user_context
                (Forall_area_ok _ _ Hbox Hok)) as (r & Hr & _).
    exists r. exact Hr.
Qed.

Lemma image_area_nonzero : (640 * 480 <> 0)%Z.
Proof. discriminate. Qed.




(** The unguarded division: a zero [image_area] with a detection that
    reads it ends in [ZeroDivisionError]. *)
Lemma calculate_score_zero_area_divides :
  outcome (calculate_score new_RiskScorer offline_world [crack_detection] 0 None)
  = Raise ZeroDivisionError.
Proof. reflexivity. Qed.

(* ------------------------------------------------------------------ *)
(** ** The scoring formula *)




Lemma new_RiskScorer_sane : sane_config new_RiskScorer.
Proof. unfold sane_config. simpl. repeat split; lra. Qed.


(** C9.  One mold detection (confidence 0.9, affected_area_percent 6) in a
    hot, humid climate, default configuration: area factor 0.6, confidence
    factor 0.92, defect penalty [(5*3 + 0.6*2.5) * 0.92 * 1.5 = 22.77],
    below the cap of 70; the score is 77 and the level "Low Risk". *)
Theorem mold_hot_humid_example (w : World) (image_area : Z) :
  exists r af p,
    outcome (calculate_score new_RiskScorer w [mold_detection] image_area
               hot_humid_context) = Ok r /\
    area_factor image_area mold_detection = Ok af /\ af == 6 # 10 /\
    confidence_factor new_RiskScorer (9 # 10) == 92 # 100 /\
    defect_penalty new_RiskScorer (climate_adjustments_of hot_humid_context)
      image_area mold_detection = Ok p /\
    p == (5 * 3 + (6 # 10) * (25 # 10)) * ((9 # 10) * (8 # 10) + (2 # 10))
         * (15 # 10) /\
    p == 2277 # 100 /\
    p < max_defects_penalty new_RiskScorer /\
    pb_defects (penalty_breakdown r) == 2277 # 100 /\
    score r = 77%Z /\
    risk_level r = "Low Risk"%string.
Proof.
  assert (Hok : Forall (area_defined image_area) [mold_detection]).
  { constructor; [split; [reflexivity | right; reflexivity] | constructor]. }
  destruct (calculate_score_total new_RiskScorer w mold_detection []
              image_area hot_humid_context Hok)
    as (r & Hr & Hs & Hl & Hpd & _).
  assert (Hscore : score r = 77%Z).
  { rewrite Hs. vm_compute. reflexivity. }
  exists r. eexists. eexists.
  split; [exact Hr|].
  split; [reflexivity|].
  split; [reflexivity|].
  split; [reflexivity|].
  split; [reflexivity|].
  split; [reflexivity|].
  split; [reflexivity|].
  split; [reflexivity|].
  split; [rewrite Hpd; reflexivity|].
  split; [exact Hscore|].
  rewrite Hl, Hscore. reflexivity.
Qed.

(** C10.  [aggregate_scores] on the empty list returns what
    [calculate_score] returns on the empty detections list: the no-defect
    result, score 100, "Low Risk", defect_count 0. *)
Theorem aggregate_scores_empty (self : RiskScorer) (w : World)
    (image_area : Z) (user_context : option UserContext) :
  aggregate_scores self w [] = (Ok (NoFrames base_result), self, []) /\
  calculate_score self w [] image_area user_context
  = (Ok base_result, self, []) /\
  score base_result = 100%Z /\
  risk_level base_result = "Low Risk"%string /\
  defect_count base_result = 0%Z.
Proof. repeat split; reflexivity. Qed.

(* ------------------------------------------------------------------ *)
(** ** Aggregation over frames *)

Lemma sum_Z_fold_right (xs : list Z) : sum_Z xs = fold_right Z.add 0%Z xs.
Proof.
  unfold sum_Z.
  assert (H : forall a, fold_left Z.add xs a = (a + fold_right Z.add 0 xs)%Z).
  { induction xs as [|x xs IH]; intro a; simpl; [lia|]. rewrite IH. lia. }
  rewrite H. lia.
Qed.

Lemma min_Z_spec (xs : list Z) : forall m,
  (min_Z m xs = m \/ In (min_Z m xs) xs) /\ (min_Z m xs <= m)%Z /\
  Forall (fun x => (min_Z m xs <= x)%Z) xs.
Proof.
  unfold min_Z. induction xs as [|x xs IH]; intro m; simpl.
  - split; [left; reflexivity|]. split; [lia | constructor].
  - specialize (IH (if (x <? m)%Z then x else m)).
    destruct IH as (Hin & Hle & Hall).
    destruct (x <? m)%Z eqn:E.
    + apply Z.ltb_lt in E. split; [|split].
      * destruct Hin as [-> | Hin]; auto.
      * lia.
      * constructor; assumption.
    + apply Z.ltb_ge in E. split; [|split].
      * destruct Hin as [-> | Hin]; auto.
      * exact Hle.
      * constructor; [lia | assumption].
Qed.

Lemma min_Z_least (x0 : Z) (xs : list Z) :
  In (min_Z x0 xs) (x0 :: xs) /\
  Forall (fun x => (min_Z x0 xs <= x)%Z) (x0 :: xs).
Proof.
  destruct (min_Z_spec xs x0) as (Hin & Hle & Hall). split.
  - simpl. destruct Hin as [-> | Hin]; auto.
  - constructor; assumption.
Qed.

(** The generators of [aggregate_scores] raise at the first frame that
    lacks the key, and otherwise list the values of all frames. *)
Lemma scores_of_spec (frame_scores : list FrameScore) :
  scores_of frame_scores
  = if forallb has_score frame_scores
    then Ok (map score_of_frame frame_scores)
    else Raise (KeyError "score").
Proof.
  induction frame_scores as [|fs rest IH]; [reflexivity|].
  cbn [scores_of forallb map]. rewrite IH.
  assert (Hs : has_score fs = match fs_score fs with Some _ => true | None => false end)
    by reflexivity.
  assert (Hv : score_of_frame fs = Py.get (fs_score fs) 0%Z) by reflexivity.
  rewrite Hs, Hv.
  destruct (fs_score fs) as [x|]; cbn; [|reflexivity].
  destruct (forallb has_score rest); reflexivity.
Qed.

Lemma defect_counts_of_spec (frame_scores : list FrameScore) :
  defect_counts_of frame_scores
  = if forallb has_defect_count frame_scores
    then Ok (map count_of_frame frame_scores)
    else Raise (KeyError "defect_count").
Proof.
  induction frame_scores as [|fs rest IH]; [reflexivity|].
  cbn [defect_counts_of forallb map]. rewrite IH.
  assert (Hs : has_defect_count fs
               = match fs_defect_count fs with Some _ => true | None => false end)
    by reflexivity.
  assert (Hv : count_of_frame fs = Py.get (fs_defect_count fs) 0%Z)
    by reflexivity.
  rewrite Hs, Hv.
  destruct (fs_defect_count fs) as [x|]; cbn; [|reflexivity].
  destruct (forallb has_defect_count rest); reflexivity.
Qed.

(** The three outcomes of [aggregate_scores] on a non-empty list. *)
Lemma aggregate_scores_outcome (self : RiskScorer) (w : World)
    (s0 : FrameScore) (rest : list FrameScore) :
  aggregate_scores self w (s0 :: rest)
  = (if forallb has_score (s0 :: rest) then
       if forallb has_defect_count (s0 :: rest)
       then Ok (Session (session_of s0 rest))
       else Raise (KeyError "defect_count")
     else Raise (KeyError "score"),
     self, []).
Proof.
  unfold aggregate_scores. f_equal. f_equal.
  rewrite defect_counts_of_spec, (scores_of_spec (s0 :: rest)),
    (scores_of_spec rest).
  cbn [forallb].
  assert (Hs : has_score s0
               = match fs_score s0 with Some _ => true | None => false end)
    by reflexivity.
  assert (Hv : score_of_frame s0 = Py.get (fs_score s0) 0%Z) by reflexivity.
  unfold session_of, mean_score, risk_level_of. cbn [map]. rewrite Hs, Hv.
  destruct (fs_score s0) as [x0|]; cbn [rbind Py.getitem Py.get andb];
    [|reflexivity].
  destruct (forallb has_score rest); cbn [rbind]; [|reflexivity].
  destruct (has_defect_count s0 && forallb has_defect_count rest);
    cbn [rbind]; [|reflexivity].
  rewrite !sum_Z_fold_right. cbn [List.length]. rewrite !length_map.
  reflexivity.
Qed.

Lemma forallb_has_both (frame_scores : list FrameScore) :
  Forall (fun fs => has_score_and_count fs = true) frame_scores ->
  forallb has_score frame_scores = true /\
  forallb has_defect_count frame_scores = true.
Proof.
  induction 1 as [|fs rest Hfs _ [IH1 IH2]]; [split; reflexivity|].
  unfold has_score_and_count in Hfs. apply andb_true_iff in Hfs.
  destruct Hfs as [H1 H2]. simpl. rewrite H1, H2, IH1, IH2. split; reflexivity.
Qed.

Lemma aggregate_scores_session (self : RiskScorer) (w : World)
    (s0 : FrameScore) (rest : list FrameScore) :
  Forall (fun fs => has_score_and_count fs = true) (s0 :: rest) ->
  aggregate_scores self w (s0 :: rest)
  = (Ok (Session (session_of s0 rest)), self, []).
Proof.
  intro Hall. rewrite aggregate_scores_outcome.
  destruct (forallb_has_both _ Hall) as [-> ->]. reflexivity.
Qed.

(** Frames that all carry a score, one of them without a defect count:
    the sum of line 308 ends the call, after the minimum, the mean and the
    breakdowns were computed. *)
Lemma aggregate_scores_key_error (self : RiskScorer) (w : World)
    (s0 : FrameScore) (rest : list FrameScore) :
  forallb has_score (s0 :: rest) = true ->
  forallb has_defect_count (s0 :: rest) = false ->
  aggregate_scores self w (s0 :: rest)
  = (Raise (KeyError "defect_count"), self, []).
Proof.
  intros H1 H2. rewrite aggregate_scores_outcome, H1, H2. reflexivity.
Qed.

(** The frames that [DeepAnalyzer._analyze_image] hands over
    ([deep_analyzer.py], lines 153-156 and 190) end the aggregation in
    this way. *)
Lemma aggregate_scores_image_results (self : RiskScorer) (w : World)
    (r : ScoreResult) (rs : list ScoreResult) :
  aggregate_scores self w (map image_result (r :: rs))
  = (Raise (KeyError "defect_count"), self, []).
Proof.
  cbn [map]. apply aggregate_scores_key_error.
  - apply forallb_forall. intros fs Hin.
    change (In fs (map image_result (r :: rs))) in Hin.
    apply in_map_iff in Hin. destruct Hin as (x & <- & _). reflexivity.
  - reflexivity.
Qed.

(** C2.  The claim fails on frames that carry a score and no defect count,
    as the frames [{score: 80}, {score: 40}, {score: 90}] of the
    specification: [aggregate_scores] then returns neither the minimum nor
    the mean, the subscript [s['defect_count']] of line 308 ends the call
    with [KeyError], where line 293 reads the breakdown with a default. *)
Theorem aggregate_scores_needs_defect_count (self : RiskScorer) (w : World)
    (frame_scores : list FrameScore) :
  frame_scores <> [] ->
  Forall (fun fs => has_score fs = true) frame_scores ->
  Exists (fun fs => has_defect_count fs = false) frame_scores ->
  aggregate_scores self w frame_scores
  = (Raise (KeyError "defect_count"), self, []).
Proof.
  intros Hne Hsc Hex. destruct frame_scores as [|s0 rest]; [contradiction|].
  apply aggregate_scores_key_error.
  - apply forallb_forall. rewrite Forall_forall in Hsc. exact Hsc.
  - destruct (forallb has_defect_count (s0 :: rest)) eqn:E; [|reflexivity].
    rewrite forallb_forall in E. apply Exists_exists in Hex.
    destruct Hex as (fs & Hin & Hfs). rewrite (E fs Hin) in Hfs. discriminate.
Qed.

Lemma aggregate_scores_needs_defect_count_witness :
  aggregate_scores new_RiskScorer offline_world
    [score_only 80; score_only 40; score_only 90]
  = (Raise (KeyError "defect_count"), new_RiskScorer, []).
Proof.
  apply (aggregate_scores_needs_defect_count new_RiskScorer offline_world
           [score_only 80; score_only 40; score_only 90]).
  - discriminate.
  - repeat constructor.
  - constructor. reflexivity.
Defined.

(** X28.  On a non-empty list of frames that carry a score and a defect
    count, as the results of [calculate_score] do, [aggregate_scores]
    returns as [score] the minimum of the frame scores (one of them, and
    below all of them), as [average_score] the arithmetic mean rounded to
    the nearest integer, and as [risk_level] the band of that minimum under
    the thresholds of [calculate_score]; frame scores 80, 40, 90 give
    score 40, average 70, "Moderate Risk". *)
Theorem aggregate_scores_min_mean (self : RiskScorer) (w : World)
    (s0 : FrameScore) (rest : list FrameScore) :
  Forall (fun fs => has_score_and_count fs = true) (s0 :: rest) ->
  exists a,
    aggregate_scores self w (s0 :: rest) = (Ok (Session a), self, []) /\
    In (agg_score a) (map score_of_frame (s0 :: rest)) /\
    Forall (fun fs => (agg_score a <= score_of_frame fs)%Z) (s0 :: rest) /\
    average_score a = Py.round (mean_score (map score_of_frame (s0 :: rest))) /\
    inject_Z (average_score a) - (1 # 2)
    <= mean_score (map score_of_frame (s0 :: rest)) /\
    mean_score (map score_of_frame (s0 :: rest))
    <= inject_Z (average_score a) + (1 # 2) /\
    agg_risk_level a = risk_level_of (agg_score a) /\
    (map score_of_frame (s0 :: rest) = [80; 40; 90]%Z ->
     agg_score a = 40%Z /\ average_score a = 70%Z /\
     agg_risk_level a = "Moderate Risk"%string).
Proof.
  intro Hall. exists (session_of s0 rest).
  split; [apply aggregate_scores_session; exact Hall|].
  destruct (min_Z_least (score_of_frame s0) (map score_of_frame rest))
    as [Hin Hmin].
  unfold session_of. cbn [agg_score average_score agg_risk_level].
  split; [exact Hin|].
  split.
  { apply Forall_forall. intros fs Hfs. rewrite Forall_forall in Hmin.
    apply Hmin. exact (in_map score_of_frame _ _ Hfs). }
  split; [reflexivity|].
  split; [apply round_near|]. split; [apply round_near|].
  split; [reflexivity|].
  intro Hscores. cbn [map] in Hscores.
  destruct rest as [|s1 [|s2 [|s3 rest]]]; try discriminate.
  cbn [map] in Hscores |- *. injection Hscores as H0 H1 H2.
  rewrite H0, H1, H2. repeat split; reflexivity.
Qed.

Lemma aggregate_scores_min_mean_witness :
  exists a,
    aggregate_scores new_RiskScorer offline_world
      [frame_with_score 80 1; frame_with_score 40 3; frame_with_score 90 0]
    = (Ok (Session a), new_RiskScorer, []) /\
    agg_score a = 40%Z /\ average_score a = 70%Z /\
    agg_risk_level a = "Moderate Risk"%string.
Proof.
  destruct (aggregate_scores_min_mean new_RiskScorer offline_world
              (frame_with_score 80 1)
              [frame_with_score 40 3; frame_with_score 90 0])
    as (a & Ha & _ & _ & _ & _ & _ & _ & Hex).
  - repeat constructor.
  - exists a. split; [exact Ha|]. apply Hex. reflexivity.
Defined.

(* ------------------------------------------------------------------ *)
(** ** Monotonicity of the score *)

Section Monotone.

Variable self : RiskScorer.
Variable w : World.
Variable image_area : Z.
Variable user_context : option UserContext.
Hypothesis Hcfg : sane_config self.
Hypothesis Hia : (0 < image_area)%Z.

Let adj := climate_adjustments_of user_context.








End Monotone.



(* ------------------------------------------------------------------ *)
(** ** Determinism and effects of [calculate_score] *)

Lemma defects_loop_config (self self' : RiskScorer) (adj : dict Q)
    (image_area : Z) (defects : list Defect) : forall st,
  confidence_weight self' = confidence_weight self ->
  defects_loop self' adj image_area st defects
  = defects_loop self adj image_area st defects.
Proof.
  intros st Hw. revert st.
  induction defects as [|d rest IH]; intro st; [reflexivity|].
  simpl. unfold loop_body, defect_penalty, confidence_factor. rewrite Hw.
  destruct (area_factor image_area d) as [af|e]; simpl; [apply IH | reflexivity].
Qed.

(** C5, as stated, fails: with the default scorer (Cortex enabled) the
    same arguments give different results when the Cortex service answers
    differently; the call imports the analytics module, calls the service
    and leaves the scorer with a cached handle. *)
Lemma calculate_score_depends_on_cortex :
  outcome (calculate_score new_RiskScorer (cortex_world "A") [mold_detection]
             (640 * 480) None)
  <> outcome (calculate_score new_RiskScorer (cortex_world "B") [mold_detection]
                (640 * 480) None) /\
  effects (calculate_score new_RiskScorer (cortex_world "A") [mold_detection]
             (640 * 480) None)
  = [ImportSnowflake; CortexCall [mold_detection] None; LogInfo] /\
  scorer_after (calculate_score new_RiskScorer (cortex_world "A")
                  [mold_detection] (640 * 480) None)
  <> new_RiskScorer.
Proof.
  split; [|split].
  - vm_compute. intro H. discriminate H.
  - reflexivity.
  - vm_compute. intro H. discriminate H.
Qed.

(** C5, amended.  What [calculate_score] computes itself (score,
    risk_level, defect_count, penalties, breakdown, summary) is a function
    of its arguments and of the scorer's numeric configuration: two calls
    with identical arguments agree on it, whatever the Cortex service
    answers and whether or not a handle is cached.  With Cortex disabled
    (and no cached handle) the whole outcome is the same in every world,
    the scorer is left unchanged and the only effect is a log record.
    With Cortex enabled, [ai_explanation] and [recommended_actions] come
    from the service. *)
Theorem calculate_score_computed_part_deterministic
    (self self' : RiskScorer) (w w' : World) (defects : list Defect)
    (image_area : Z) (user_context : option UserContext) :
  base_score self' = base_score self ->
  max_defects_penalty self' = max_defects_penalty self ->
  confidence_weight self' = confidence_weight self ->
  same_computed_part
    (outcome (calculate_score self w defects image_area user_context))
    (outcome (calculate_score self' w' defects image_area user_context)) /\
  (enable_cortex_ai self = false -> cortex_analytics self = false ->
   calculate_score self w' defects image_area user_context
   = calculate_score self w defects image_area user_context /\
   scorer_after (calculate_score self w defects image_area user_context) = self /\
   forall fx,
     In fx (effects (calculate_score self w defects image_area user_context)) ->
     fx = LogInfo).
Proof.
  intros Hb Hm Hw. split.
  - unfold calculate_score. destruct defects as [|d rest]; [reflexivity|].
    rewrite (defects_loop_config self self' _ _ (d :: rest) _ Hw).
    destruct (defects_loop self _ image_area _ (d :: rest)) as [st|e];
      [|reflexivity].
    rewrite Hb, Hm.
    destruct (cortex_insights self w (d :: rest) user_context _)
      as [[[s1 ai1] acts1] fx1].
    destruct (cortex_insights self' w' (d :: rest) user_context _)
      as [[[s2 ai2] acts2] fx2].
    reflexivity.
  - intros Hoff Hnone.
    assert (Hins : forall v recs,
              cortex_insights self v defects user_context recs
              = (self, None, recs, [])).
    { intros v recs. unfold cortex_insights, _get_cortex_analytics.
      rewrite Hoff, Hnone. reflexivity. }
    unfold calculate_score. destruct defects as [|d rest].
    + repeat split. intros fx [].
    + destruct (defects_loop self _ image_area _ (d :: rest)) as [st|e].
      * rewrite !Hins. repeat split.
        intros fx [<- | []]. reflexivity.
      * repeat split. intros fx [].
Qed.

Lemma calculate_score_computed_part_deterministic_witness :
  same_computed_part
    (outcome (calculate_score new_RiskScorer (cortex_world "A")
                [mold_detection] (640 * 480) None))
    (outcome (calculate_score quiet_RiskScorer (cortex_world "B")
                [mold_detection] (640 * 480) None)) /\
  calculate_score quiet_RiskScorer (cortex_world "B") [mold_detection]
    (640 * 480) None
  = calculate_score quiet_RiskScorer (cortex_world "A") [mold_detection]
      (640 * 480) None.
Proof.
  split.
  - apply (calculate_score_computed_part_deterministic new_RiskScorer
             quiet_RiskScorer (cortex_world "A") (cortex_world "B")
             [mold_detection] (640 * 480) None); reflexivity.
  - apply (calculate_score_computed_part_deterministic quiet_RiskScorer
             quiet_RiskScorer (cortex_world "A") (cortex_world "B")
             [mold_detection] (640 * 480) None); reflexivity.
Defined.

(* ------------------------------------------------------------------ *)
(** ** Growth rate of a track *)

Lemma slice_last_samples (n : nat) (xs : list Q) :
  slice_last n xs = last_samples n xs.
Proof.
  unfold slice_last, last_samples. rewrite firstn_rev, rev_involutive.
  reflexivity.
Qed.

Lemma code_average (xs : list Q) (n : nat) :
  Py.sum xs / inject_Z (Z.of_nat n) == average xs n.
Proof. unfold average. rewrite sum_fold_right. reflexivity. Qed.

(** C6.  [growth_rate] is exactly 0 when the track has fewer than two
    area samples, and when the average of its first [min(3, n)] samples
    is 0; otherwise it is [(end_avg - start_avg) / start_avg], the
    averages being those of the first and of the last [min(3, n)] samples. *)
Theorem growth_rate_spec (t : DefectTrack) :
  let n := Nat.min 3 (List.length (areas t)) in
  let start_avg := average (first_samples n (areas t)) n in
  let end_avg := average (last_samples n (areas t)) n in
  ((List.length (areas t) < 2)%nat -> growth_rate t = 0) /\
  ((2 <= List.length (areas t))%nat -> start_avg == 0 -> growth_rate t = 0) /\
  ((2 <= List.length (areas t))%nat -> ~ start_avg == 0 ->
   growth_rate t == (end_avg - start_avg) / start_avg).
Proof.
  cbv zeta. unfold growth_rate.
  set (n := Nat.min 3 (List.length (areas t))).
  pose proof (code_average (slice_first n (areas t)) n) as Hs.
  pose proof (code_average (slice_last n (areas t)) n) as He.
  rewrite slice_last_samples in He. unfold slice_first in Hs.
  rewrite slice_last_samples. unfold slice_first, first_samples.
  split; [|split].
  - intro Hlt. apply Nat.ltb_lt in Hlt. rewrite Hlt. reflexivity.
  - intros Hge H0. apply Nat.ltb_ge in Hge. rewrite Hge.
    assert (E : Py.eqb (Py.sum (firstn n (areas t)) / inject_Z (Z.of_nat n)) 0
                = true).
    { apply eqb_true. rewrite Hs. exact H0. }
    rewrite E. reflexivity.
  - intros Hge Hne. apply Nat.ltb_ge in Hge. rewrite Hge.
    assert (E : Py.eqb (Py.sum (firstn n (areas t)) / inject_Z (Z.of_nat n)) 0
                = false).
    { apply eqb_false. rewrite Hs. exact Hne. }
    rewrite E, Hs, He. reflexivity.
Qed.

Lemma growth_rate_spec_witness :
  growth_rate (track_with_areas [5]) = 0 /\
  growth_rate (track_with_areas [0; 0; 0; 9]) = 0 /\
  growth_rate (track_with_areas [100; 110; 120; 130])
  == (average [110; 120; 130] 3 - average [100; 110; 120] 3)
     / average [100; 110; 120] 3.
Proof.
  split; [|split].
  - apply (proj1 (growth_rate_spec (track_with_areas [5]))). simpl. lia.
  - apply (proj1 (proj2 (growth_rate_spec (track_with_areas [0; 0; 0; 9])))).
    + simpl. lia.
    + reflexivity.
  - apply (proj2 (proj2 (growth_rate_spec
                           (track_with_areas [100; 110; 120; 130])))).
    + simpl. lia.
    + discriminate.
Defined.

(* ------------------------------------------------------------------ *)
(** ** The tracker: what [update] does *)

(** The area of a list of numbers: defined from four coordinates on. *)
Lemma bbox_area_box (l : list Q) :
  bbox_area (Py.box l)
  = if Nat.leb 4 (List.length l) then Ok (box_area_value l)
    else Raise IndexError.
Proof.
  destruct l as [|b0 [|b1 [|b2 [|b3 l]]]]; reflexivity.
Qed.

(** The inner loop meets [track in matched_tracks] at its first track:
    it only returns when there is no active track at all. *)
Lemma best_match_outcome (s : TemporalTracker) (matched : list nat)
    (det : Defect) (bbox : value) (active : list nat) :
  best_match s matched det bbox active 0 None
  = match active with
    | [] => Ok (0, None)
    | _ :: _ => Raise TypeError
    end.
Proof. destruct active; reflexivity. Qed.

(** The matching loop never binds a detection: it leaves the tracker as
    it was, and when it returns, nothing is assigned. *)
Lemma match_loop_outcome (frame_id : Z) (active : list nat)
    (dets : list (nat * Defect)) : forall assigned matched s,
  fst (match_loop frame_id active dets assigned matched s) = s /\
  (forall a, snd (match_loop frame_id active dets assigned matched s) = Ok a ->
             a = assigned).
Proof.
  induction dets as [|[i det] rest IH]; intros assigned matched s.
  - split; [reflexivity|]. simpl. intros a H. injection H as <-. reflexivity.
  - simpl. unfold t_bind, t_lift, t_get.
    destruct (d_bbox det) as [bbox|]; simpl;
      [|split; [reflexivity | discriminate]].
    destruct (bbox_area bbox) as [area|e]; simpl;
      [|split; [reflexivity | discriminate]].
    rewrite best_match_outcome.
    destruct active as [|t active']; simpl;
      [|split; [reflexivity | discriminate]].
    apply IH.
Qed.


(** The second loop only appends tracks. *)
Lemma create_loop_appends (frame_id : Z) (dets : list (nat * Defect))
    (assigned : list nat) : forall s,
  exists new,
    tracks (fst (create_loop frame_id dets assigned s)) = tracks s ++ new /\
    iou_threshold (fst (create_loop frame_id dets assigned s)) = iou_threshold s /\
    max_dropout (fst (create_loop frame_id dets assigned s)) = max_dropout s.
Proof.
  induction dets as [|[i det] rest IH]; intro s.
  - exists []. simpl. rewrite app_nil_r. auto.
  - simpl. destruct (existsb (Nat.eqb i) assigned); [apply IH|].
    unfold new_track, t_bind, t_lift.
    destruct (d_bbox det) as [bbox|]; simpl;
      [|exists []; rewrite app_nil_r; auto].
    destruct (bbox_area bbox) as [area|e]; simpl;
      [|exists []; rewrite app_nil_r; auto].
    destruct (d_class det) as [cls|]; simpl;
      [|exists []; rewrite app_nil_r; auto].
    destruct (d_confidence det) as [c|]; simpl;
      [|exists []; rewrite app_nil_r; auto].
    match goal with
    | |- context [create_loop frame_id rest assigned ?s1] =>
        destruct (IH s1) as (new & Ht & Hi & Hm)
    end.
    eexists. rewrite Ht, Hi, Hm. simpl. rewrite <- app_assoc.
    split; [reflexivity | auto].
Qed.

(** X27.  Every track that exists before an [update] is in the history
    afterwards, at the same place and with the same fields (in particular
    the same [frames_seen]), whether [update] returns or raises. *)
Lemma update_keeps_history (detections : list Defect) (frame_id : Z)
    (s : TemporalTracker) :
  exists new,
    tracks (fst (update detections frame_id s)) = tracks s ++ new.
Proof.
  unfold update, t_bind, t_get, t_lift.
  destruct (sorted_by_confidence detections) as [sorted|e]; simpl;
    [|exists []; rewrite app_nil_r; reflexivity].
  pose proof (match_loop_outcome frame_id (active_tracks_of s frame_id)
                (enumerate sorted) [] [] s) as [Hst Hassigned].
  destruct (match_loop frame_id (active_tracks_of s frame_id)
              (enumerate sorted) [] [] s) as [s' [assigned|e]]; simpl in *.
  - subst s'. destruct (create_loop_appends frame_id (enumerate sorted)
                          assigned s) as (new & Ht & _).
    exists new. exact Ht.
  - subst s'. exists []. rewrite app_nil_r. reflexivity.
Qed.

(** *** The sort keeps the detections *)

Lemma insert_desc_Exists (P : Q * Defect -> Prop) (x : Q * Defect)
    (l : list (Q * Defect)) :
  Exists P (x :: l) -> Exists P (insert_desc x l).
Proof.
  induction l as [|y l IH]; intro H; simpl; [exact H|].
  destruct (Py.ltb (fst x) (fst y)); [|exact H].
  inversion H as [? ? Hx | ? ? Hyl]; subst.
  - apply Exists_cons_tl. apply IH. apply Exists_cons_hd. exact Hx.
  - inversion Hyl as [? ? Hy | ? ? Hl]; subst.
    + apply Exists_cons_hd. exact Hy.
    + apply Exists_cons_tl. apply IH. apply Exists_cons_tl. exact Hl.
Qed.

Lemma sort_Exists (P : Q * Defect -> Prop) (ks : list (Q * Defect)) :
  Exists P ks -> Exists P (fold_right insert_desc [] ks).
Proof.
  induction ks as [|k ks IH]; intro H; simpl; [exact H|].
  apply insert_desc_Exists.
  inversion H as [? ? Hk | ? ? Hks]; subst.
  - apply Exists_cons_hd. exact Hk.
  - apply Exists_cons_tl. apply IH. exact Hks.
Qed.

Lemma keyed_snd (dets : list Defect) : forall ks,
  keyed dets = Ok ks -> map snd ks = dets.
Proof.
  induction dets as [|d rest IH]; intros ks H; simpl in H.
  - injection H as <-. reflexivity.
  - destruct (d_confidence d) as [c|]; simpl in H; [|discriminate].
    destruct (keyed rest) as [ks'|e]; simpl in H; [|discriminate].
    injection H as <-. simpl. rewrite (IH ks' eq_refl). reflexivity.
Qed.

Lemma sorted_Exists (P : Defect -> Prop) (dets sorted : list Defect) :
  sorted_by_confidence dets = Ok sorted -> Exists P dets -> Exists P sorted.
Proof.
  unfold sorted_by_confidence. intros H Hex.
  destruct (keyed dets) as [ks|e] eqn:Hk; simpl in H; [|discriminate].
  injection H as <-. rewrite Exists_map.
  apply sort_Exists. apply keyed_snd in Hk. subst dets.
  rewrite Exists_map in Hex. exact Hex.
Qed.

Lemma insert_desc_nonempty (x : Q * Defect) (l : list (Q * Defect)) :
  insert_desc x l <> [].
Proof.
  destruct l as [|y l]; simpl; [discriminate|].
  destruct (Py.ltb (fst x) (fst y)); discriminate.
Qed.

Lemma sorted_nonempty (dets sorted : list Defect) :
  sorted_by_confidence dets = Ok sorted -> dets <> [] -> sorted <> [].
Proof.
  unfold sorted_by_confidence. intros H Hne.
  destruct (keyed dets) as [ks|e] eqn:Hk; simpl in H; [|discriminate].
  injection H as <-. apply keyed_snd in Hk.
  destruct ks as [|k ks]; [simpl in Hk; congruence|].
  simpl. intro Hnil. apply map_eq_nil in Hnil.
  exact (insert_desc_nonempty _ _ Hnil).
Qed.

Lemma enumerate_Exists {A} (P : A -> Prop) (xs : list A) :
  Exists P xs -> Exists (fun ix => P (snd ix)) (enumerate xs).
Proof.
  unfold enumerate. generalize 0%nat.
  induction xs as [|x xs IH]; intros a H; [inversion H|].
  simpl. inversion H as [? ? Hx | ? ? Hxs]; subst.
  - apply Exists_cons_hd. exact Hx.
  - apply Exists_cons_tl. apply IH. exact Hxs.
Qed.

Lemma insert_desc_perm (x : Q * Defect) (l : list (Q * Defect)) :
  Permutation (x :: l) (insert_desc x l).
Proof.
  induction l as [|y l IH]; simpl; [reflexivity|].
  destruct (Py.ltb (fst x) (fst y)); [|reflexivity].
  rewrite perm_swap. apply perm_skip. exact IH.
Qed.

Lemma sort_perm (ks : list (Q * Defect)) :
  Permutation ks (fold_right insert_desc [] ks).
Proof.
  induction ks as [|k ks IH]; simpl; [reflexivity|].
  rewrite <- insert_desc_perm. apply perm_skip. exact IH.
Qed.





Lemma enumerate_snd {A} (xs : list A) : map snd (enumerate xs) = xs.
Proof.
  unfold enumerate. generalize 0%nat.
  induction xs as [|x xs IH]; intro a; [reflexivity|].
  simpl. rewrite IH. reflexivity.
Qed.


(** X12.  With an active track, every non-empty [update] raises and leaves
    the tracker as it was: no detection is ever matched to a track. *)
Lemma update_active_raises (detections : list Defect) (frame_id : Z)
    (s : TemporalTracker) :
  active_tracks_of s frame_id <> [] -> detections <> [] ->
  exists e, update detections frame_id s = (s, Raise e).
Proof.
  intros Hact Hdets. unfold update, t_bind, t_get, t_lift.
  destruct (sorted_by_confidence detections) as [sorted|e] eqn:Hs; simpl;
    [|eexists; reflexivity].
  pose proof (sorted_nonempty _ _ Hs Hdets) as Hne.
  destruct sorted as [|det rest]; [contradiction|].
  unfold enumerate. simpl. unfold t_bind, t_lift, t_get.
  destruct (d_bbox det) as [bbox|]; simpl; [|eexists; reflexivity].
  destruct (bbox_area bbox) as [area|e]; simpl; [|eexists; reflexivity].
  rewrite best_match_outcome.
  destruct (active_tracks_of s frame_id) as [|t active']; [contradiction|].
  simpl. eexists. reflexivity.
Qed.

(** The first detection in descending order of confidence meets lines
    77-78 before any track is looked at. *)
Lemma update_head_defect (detections rest : list Defect) (det : Defect)
    (frame_id : Z) (s : TemporalTracker) (e : exn) :
  sorted_by_confidence detections = Ok (det :: rest) ->
  box_defect det = Some e ->
  update detections frame_id s = (s, Raise e).
Proof.
  intros Hs He. unfold update, t_bind, t_get, t_lift. rewrite Hs. simpl.
  unfold enumerate. simpl. unfold t_bind, t_lift, t_get.
  unfold box_defect in He.
  destruct (d_bbox det) as [bbox|]; simpl.
  - destruct (bbox_area bbox) as [area|e']; [discriminate|].
    injection He as <-. reflexivity.
  - injection He as <-. reflexivity.
Qed.

(* ------------------------------------------------------------------ *)
(** ** Malformed detections *)

(** *** The scorer on the box of one detection *)







(** *** The tracker on the box of one detection *)







(* ------------------------------------------------------------------ *)
(** ** Matching a detection to a track *)

(** C7, on the code.  A first frame creates a track with
    [frames_seen = 1].  On the next frame the same detection (same class,
    IoU 1 with the track's last box, the track active) should match it and
    raise [frames_seen] to 2; [update] raises [TypeError] at
    [track in matched_tracks] instead, and [frames_seen] stays 1. *)
Theorem update_rematch_raises :
  update [crack_detection] 1 new_TemporalTracker
  = (tracker_after_first_frame, Ok tt) /\
  map frames_seen (tracks tracker_after_first_frame) = [1%Z] /\
  active_tracks_of tracker_after_first_frame 2 = [0%nat] /\
  (exists iou,
     calculate_iou [0; 0; 10; 10] [0; 0; 10; 10] = Ok iou /\ iou == 1 /\
     iou_threshold tracker_after_first_frame <= iou) /\
  update [crack_detection] 2 tracker_after_first_frame
  = (tracker_after_first_frame, Raise TypeError) /\
  map frames_seen
    (tracks (fst (update [crack_detection] 2 tracker_after_first_frame)))
  = [1%Z].
Proof.
  split; [reflexivity|]. split; [reflexivity|]. split; [reflexivity|].
  split.
  - eexists. split; [reflexivity|]. split; [reflexivity | discriminate].
  - split; reflexivity.
Qed.

(** A track whose [last_frame] is more than [max_dropout] frames back is
    not among the active tracks. *)
Lemma stale_track_inactive (s : TemporalTracker) (frame_id : Z) (i : nat)
    (t : DefectTrack) :
  nth_error (tracks s) i = Some t ->
  (max_dropout s < frame_id - last_frame t)%Z ->
  ~ In i (active_tracks_of s frame_id).
Proof.
  intros Hnth Hstale Hin. unfold active_tracks_of in Hin.
  apply in_map_iff in Hin. destruct Hin as [[j t'] [Hj Hf]]. simpl in Hj. subst j.
  apply filter_In in Hf. destruct Hf as [Hin Hle]. simpl in Hle.
  assert (Ht : nth_error (tracks s) i = Some t').
  { unfold enumerate in Hin. revert Hin. generalize (tracks s) as ts.
    intros ts Hin.
    assert (G : forall a (l : list DefectTrack) k,
              In (k, t') (combine (seq a (List.length l)) l) ->
              (a <= k)%nat /\ nth_error l (k - a) = Some t').
    { intros a l. revert a. induction l as [|x l IHl]; intros a k H; simpl in H.
      - contradiction.
      - destruct H as [H | H].
        + injection H as <- <-. split; [lia|]. rewrite Nat.sub_diag. reflexivity.
        + apply IHl in H. destruct H as [Hle' Hn]. split; [lia|].
          replace (k - a)%nat with (S (k - S a)) by lia. exact Hn. }
    apply G in Hin. destruct Hin as [_ Hn]. rewrite Nat.sub_0_r in Hn. exact Hn. }
  rewrite Hnth in Ht. injection Ht as <-.
  apply Z.leb_le in Hle. lia.
Qed.

(* ------------------------------------------------------------------ *)
(** ** Intersection over union *)

Ltac split_min a b :=
  let H := fresh "H" in let E := fresh "E" in
  destruct (min_cases a b) as [[H E]|[H E]]; rewrite ?E.

Ltac split_max a b :=
  let H := fresh "H" in let E := fresh "E" in
  destruct (max_cases a b) as [[H E]|[H E]]; rewrite ?E.

Lemma calculate_iou_eq (a0 a1 a2 a3 b0 b1 b2 b3 : Q) (la lb : list Q) :
  calculate_iou (a0 :: a1 :: a2 :: a3 :: la) (b0 :: b1 :: b2 :: b3 :: lb)
  = Ok (let intersection := overlap a0 a2 b0 b2 * overlap a1 a3 b1 b3 in
        let union :=
          (a2 - a0) * (a3 - a1) + (b2 - b0) * (b3 - b1) - intersection in
        if Py.ltb 0 union then intersection / union else 0).
Proof.
  unfold calculate_iou, overlap. simpl. cbv zeta.
  destruct (Py.ltb 0 _); reflexivity.
Qed.

Lemma overlap_sym (lo hi lo' hi' : Q) :
  overlap lo hi lo' hi' == overlap lo' hi' lo hi.
Proof.
  unfold overlap.
  split_min hi hi';
    split_min hi' hi;
    split_max lo lo';
    split_max lo' lo;
    match goal with
    | |- Py.max 0 ?x == Py.max 0 ?y =>
        split_max 0 x;
        split_max 0 y; lra
    end.
Qed.

Lemma overlap_bounds (lo hi lo' hi' : Q) :
  lo <= hi -> lo' <= hi' ->
  0 <= overlap lo hi lo' hi' /\
  overlap lo hi lo' hi' <= hi - lo /\
  overlap lo hi lo' hi' <= hi' - lo'.
Proof.
  intros H H'. unfold overlap.
  split_min hi hi';
    split_max lo lo';
    match goal with
    | |- context [Py.max 0 ?x] =>
        split_max 0 x; lra
    end.
Qed.

Lemma overlap_self (lo hi : Q) : lo <= hi -> overlap lo hi lo hi == hi - lo.
Proof.
  intro H. unfold overlap.
  split_min hi hi;
    split_max lo lo;
    match goal with
    | |- Py.max 0 ?x == _ =>
        split_max 0 x; lra
    end.
Qed.

Lemma overlap_apart (lo hi lo' hi' : Q) :
  hi <= lo' \/ hi' <= lo -> overlap lo hi lo' hi' == 0.
Proof.
  intro H. unfold overlap.
  split_min hi hi';
    split_max lo lo';
    match goal with
    | |- Py.max 0 ?x == _ =>
        split_max 0 x; lra
    end.
Qed.

Lemma ltb_comp (x x' y y' : Q) : x == x' -> y == y' -> Py.ltb x y = Py.ltb x' y'.
Proof.
  intros Hx Hy.
  destruct (Py.ltb x y) eqn:E; destruct (Py.ltb x' y') eqn:E'; try reflexivity.
  - apply ltb_true in E. apply ltb_false in E'. lra.
  - apply ltb_false in E. apply ltb_true in E'. lra.
Qed.

(** X1.  [calculate_iou] needs four coordinates in each box: it raises
    [IndexError] when one has fewer, and returns a number otherwise
    (coordinates beyond the fourth are ignored). *)
Theorem calculate_iou_index_error (box1 box2 : list Q) :
  ((List.length box1 < 4)%nat \/ (List.length box2 < 4)%nat ->
   calculate_iou box1 box2 = Raise IndexError) /\
  ((4 <= List.length box1)%nat -> (4 <= List.length box2)%nat ->
   exists iou, calculate_iou box1 box2 = Ok iou /\
               calculate_iou (firstn 4 box1) (firstn 4 box2) = Ok iou).
Proof.
  destruct box1 as [|a0 [|a1 [|a2 [|a3 la]]]];
    destruct box2 as [|b0 [|b1 [|b2 [|b3 lb]]]];
    (split; [first [intros _; reflexivity | intros [H|H]; simpl in H; lia]
            | intros H1 H2; simpl in H1, H2; try lia]).
  simpl firstn. rewrite !calculate_iou_eq. eexists. split; reflexivity.
Qed.

Lemma calculate_iou_index_error_witness :
  calculate_iou [0; 0; 10] [0; 0; 10; 10] = Raise IndexError /\
  exists iou,
    calculate_iou [0; 0; 10; 10; 7] [5; 5; 15; 15] = Ok iou /\
    calculate_iou [0; 0; 10; 10] [5; 5; 15; 15] = Ok iou.
Proof.
  split.
  - apply (proj1 (calculate_iou_index_error [0; 0; 10] [0; 0; 10; 10])).
    left. simpl. lia.
  - apply (proj2 (calculate_iou_index_error [0; 0; 10; 10; 7] [5; 5; 15; 15]));
      simpl; lia.
Defined.

(** X2.  [calculate_iou] is symmetric: swapping the two boxes gives the
    same exception or the same number. *)
Theorem calculate_iou_symmetric (box1 box2 : list Q) :
  result_Qeq (calculate_iou box1 box2) (calculate_iou box2 box1).
Proof.
  destruct box1 as [|a0 [|a1 [|a2 [|a3 la]]]];
    destruct box2 as [|b0 [|b1 [|b2 [|b3 lb]]]];
    try reflexivity.
  rewrite !calculate_iou_eq. cbv zeta. unfold result_Qeq.
  pose proof (overlap_sym a0 a2 b0 b2) as Hx.
  pose proof (overlap_sym a1 a3 b1 b3) as Hy.
  assert (Hi : overlap a0 a2 b0 b2 * overlap a1 a3 b1 b3
               == overlap b0 b2 a0 a2 * overlap b1 b3 a1 a3).
  { rewrite Hx, Hy. reflexivity. }
  assert (Hu : (a2 - a0) * (a3 - a1) + (b2 - b0) * (b3 - b1)
               - overlap a0 a2 b0 b2 * overlap a1 a3 b1 b3
               == (b2 - b0) * (b3 - b1) + (a2 - a0) * (a3 - a1)
                  - overlap b0 b2 a0 a2 * overlap b1 b3 a1 a3).
  { rewrite Hi. ring. }
  rewrite (ltb_comp 0 0 _ _ (Qeq_refl 0) Hu).
  destruct (Py.ltb 0 _); [|reflexivity].
  apply Qdiv_comp; assumption.
Qed.

(** X3.  For two boxes with [x1 <= x2] and [y1 <= y2], the IoU lies in
    [[0, 1]]. *)
Theorem calculate_iou_range (a0 a1 a2 a3 b0 b1 b2 b3 : Q) :
  a0 <= a2 -> a1 <= a3 -> b0 <= b2 -> b1 <= b3 ->
  exists iou,
    calculate_iou [a0; a1; a2; a3] [b0; b1; b2; b3] = Ok iou /\
    0 <= iou /\ iou <= 1.
Proof.
  intros Hax Hay Hbx Hby. rewrite calculate_iou_eq. cbv zeta.
  eexists. split; [reflexivity|].
  destruct (overlap_bounds a0 a2 b0 b2 Hax Hbx) as (Hx0 & Hxa & Hxb).
  destruct (overlap_bounds a1 a3 b1 b3 Hay Hby) as (Hy0 & Hya & Hyb).
  set (i := overlap a0 a2 b0 b2 * overlap a1 a3 b1 b3).
  assert (Hi0 : 0 <= i) by (apply Qmult_le_0_compat; assumption).
  assert (Hia : i <= (a2 - a0) * (a3 - a1)).
  { apply Qmult_le_compat_nonneg; split; assumption. }
  assert (Hib : i <= (b2 - b0) * (b3 - b1)).
  { apply Qmult_le_compat_nonneg; split; assumption. }
  set (A := (a2 - a0) * (a3 - a1)) in *.
  set (B := (b2 - b0) * (b3 - b1)) in *.
  clearbody i A B. clear Hx0 Hxa Hxb Hy0 Hya Hyb.
  destruct (Py.ltb 0 (A + B - i)) eqn:E; [|lra].
  apply ltb_true in E. split.
  - apply Qle_shift_div_l; [exact E | lra].
  - apply Qle_shift_div_r; [exact E | lra].
Qed.

Lemma calculate_iou_range_witness :
  exists iou,
    calculate_iou [0; 0; 10; 10] [5; 5; 15; 15] = Ok iou /\
    0 <= iou /\ iou <= 1.
Proof.
  apply (calculate_iou_range 0 0 10 10 5 5 15 15); discriminate.
Defined.

(** X4.  A box of positive area has IoU 1 with itself. *)
Theorem calculate_iou_self (x1 y1 x2 y2 : Q) :
  x1 < x2 -> y1 < y2 ->
  exists iou,
    calculate_iou [x1; y1; x2; y2] [x1; y1; x2; y2] = Ok iou /\ iou == 1.
Proof.
  intros Hx Hy. rewrite calculate_iou_eq. cbv zeta.
  eexists. split; [reflexivity|].
  assert (Hi : overlap x1 x2 x1 x2 * overlap y1 y2 y1 y2
               == (x2 - x1) * (y2 - y1)).
  { rewrite (overlap_self x1 x2), (overlap_self y1 y2) by lra. reflexivity. }
  assert (Hpos : 0 < (x2 - x1) * (y2 - y1)).
  { apply Qmult_lt_0_compat; lra. }
  assert (Hu : (x2 - x1) * (y2 - y1) + (x2 - x1) * (y2 - y1)
               - overlap x1 x2 x1 x2 * overlap y1 y2 y1 y2
               == (x2 - x1) * (y2 - y1)).
  { rewrite Hi. ring. }
  assert (E : Py.ltb 0 ((x2 - x1) * (y2 - y1) + (x2 - x1) * (y2 - y1)
                        - overlap x1 x2 x1 x2 * overlap y1 y2 y1 y2) = true).
  { apply ltb_true. rewrite Hu. exact Hpos. }
  rewrite E.
  transitivity ((x2 - x1) * (y2 - y1) / ((x2 - x1) * (y2 - y1)));
    [apply Qdiv_comp; assumption|].
  set (A := (x2 - x1) * (y2 - y1)) in *. clearbody A.
  field. intro H0. rewrite H0 in Hpos. lra.
Qed.

Lemma calculate_iou_self_witness :
  exists iou,
    calculate_iou [2; 3; 12; 8] [2; 3; 12; 8] = Ok iou /\ iou == 1.
Proof.
  apply (calculate_iou_self 2 3 12 8); reflexivity.
Defined.

(** X5.  Two boxes that do not overlap on one axis (one ends where, or
    before, the other starts) have IoU 0. *)
Theorem calculate_iou_disjoint (a0 a1 a2 a3 b0 b1 b2 b3 : Q) :
  a2 <= b0 \/ b2 <= a0 \/ a3 <= b1 \/ b3 <= a1 ->
  exists iou,
    calculate_iou [a0; a1; a2; a3] [b0; b1; b2; b3] = Ok iou /\ iou == 0.
Proof.
  intro Hd. rewrite calculate_iou_eq. cbv zeta.
  eexists. split; [reflexivity|].
  assert (Hi : overlap a0 a2 b0 b2 * overlap a1 a3 b1 b3 == 0).
  { destruct Hd as [H | [H | [H | H]]].
    - rewrite (overlap_apart a0 a2 b0 b2) by (left; exact H). ring.
    - rewrite (overlap_apart a0 a2 b0 b2) by (right; exact H). ring.
    - rewrite (overlap_apart a1 a3 b1 b3) by (left; exact H). ring.
    - rewrite (overlap_apart a1 a3 b1 b3) by (right; exact H). ring. }
  destruct (Py.ltb 0 _); [|reflexivity].
  rewrite Hi at 1. unfold Qdiv. ring.
Qed.

Lemma calculate_iou_disjoint_witness :
  exists iou,
    calculate_iou [0; 0; 10; 10] [10; 0; 20; 10] = Ok iou /\ iou == 0.
Proof.
  apply (calculate_iou_disjoint 0 0 10 10 10 0 20 10). left. discriminate.
Defined.

(* ------------------------------------------------------------------ *)
(** ** The tracker: creation of tracks *)

Lemma bbox_area_long (bbox : list Q) :
  (4 <= List.length bbox)%nat ->
  bbox_area (Py.box bbox) = Ok (box_area_value bbox).
Proof.
  intro H. rewrite bbox_area_box. apply Nat.leb_le in H. rewrite H.
  reflexivity.
Qed.

Lemma trackable_fields (det : Defect) :
  trackable det = true ->
  exists cls c bbox,
    d_class det = Some cls /\ d_confidence det = Some c /\
    d_bbox det = Some (Py.box bbox) /\ (4 <= List.length bbox)%nat.
Proof.
  unfold trackable. intro H.
  destruct (d_class det) as [cls|]; [|discriminate].
  destruct (d_confidence det) as [c|]; [|discriminate].
  destruct (d_bbox det) as [bbox|]; [|discriminate].
  apply andb_true_iff in H. destruct H as [Hnum H].
  apply Nat.leb_le in H. exists cls, c, (Py.numbers_of bbox).
  rewrite <- (number_list_box bbox Hnum). auto.
Qed.

(** What any run of the second loop adds to the tracker. *)
Lemma create_loop_shape (frame_id : Z) (dets : list (nat * Defect))
    (assigned : list nat) : forall s,
  exists new,
    tracks (fst (create_loop frame_id dets assigned s)) = tracks s ++ new /\
    next_id (fst (create_loop frame_id dets assigned s))
    = (next_id s + Z.of_nat (List.length new))%Z /\
    map track_id new = ids_from (next_id s) (List.length new) /\
    Forall unmatched_shape new /\
    Forall (fun t => last_frame t = frame_id) new /\
    iou_threshold (fst (create_loop frame_id dets assigned s)) = iou_threshold s /\
    max_dropout (fst (create_loop frame_id dets assigned s)) = max_dropout s.
Proof.
  assert (Hnil : forall s : TemporalTracker,
            exists new : list DefectTrack,
              tracks s = tracks s ++ new /\
              next_id s = (next_id s + Z.of_nat (List.length new))%Z /\
              map track_id new = ids_from (next_id s) (List.length new) /\
              Forall unmatched_shape new /\
              Forall (fun t => last_frame t = frame_id) new /\
              iou_threshold s = iou_threshold s /\
              max_dropout s = max_dropout s).
  { intro s. exists []. rewrite app_nil_r. simpl.
    repeat split; try constructor. lia. }
  induction dets as [|[i det] rest IH]; intro s.
  - apply Hnil.
  - simpl. destruct (existsb (Nat.eqb i) assigned); [apply IH|].
    unfold new_track, t_bind, t_lift.
    destruct (d_bbox det) as [bbox|]; simpl; [|apply Hnil].
    destruct (bbox_area bbox) as [area|e]; simpl; [|apply Hnil].
    destruct (d_class det) as [cls|]; simpl; [|apply Hnil].
    destruct (d_confidence det) as [c|]; simpl; [|apply Hnil].
    match goal with
    | |- context [create_loop frame_id rest assigned ?s1] =>
        destruct (IH s1) as (new & Ht & Hn & Hids & Hshape & Hlast & Hi & Hm);
        set (s' := s1) in *
    end.
    simpl in Ht, Hn, Hids, Hi, Hm.
    eexists (_ :: new). rewrite Ht, Hn, Hi, Hm. rewrite <- app_assoc. simpl.
    split; [reflexivity|]. split; [lia|]. split; [rewrite Hids; reflexivity|].
    split; [|split; [|split; reflexivity]].
    + constructor; [|exact Hshape]. repeat split.
    + constructor; [reflexivity | exact Hlast].
Qed.

(** What any [update] adds to the tracker, whether it returns or raises. *)
Lemma update_shape (detections : list Defect) (frame_id : Z)
    (s : TemporalTracker) :
  exists new,
    tracks (fst (update detections frame_id s)) = tracks s ++ new /\
    next_id (fst (update detections frame_id s))
    = (next_id s + Z.of_nat (List.length new))%Z /\
    map track_id new = ids_from (next_id s) (List.length new) /\
    Forall unmatched_shape new /\
    Forall (fun t => last_frame t = frame_id) new /\
    iou_threshold (fst (update detections frame_id s)) = iou_threshold s /\
    max_dropout (fst (update detections frame_id s)) = max_dropout s.
Proof.
  assert (Hnil : exists new : list DefectTrack,
            tracks s = tracks s ++ new /\
            next_id s = (next_id s + Z.of_nat (List.length new))%Z /\
            map track_id new = ids_from (next_id s) (List.length new) /\
            Forall unmatched_shape new /\
            Forall (fun t => last_frame t = frame_id) new /\
            iou_threshold s = iou_threshold s /\
            max_dropout s = max_dropout s).
  { exists []. rewrite app_nil_r. simpl. repeat split; try constructor. lia. }
  unfold update, t_bind, t_get, t_lift.
  destruct (sorted_by_confidence detections) as [sorted|e]; simpl;
    [|exact Hnil].
  pose proof (match_loop_outcome frame_id (active_tracks_of s frame_id)
                (enumerate sorted) [] [] s) as [Hst _].
  destruct (match_loop frame_id (active_tracks_of s frame_id)
              (enumerate sorted) [] [] s) as [s' [assigned|e]];
    simpl in *; subst s'.
  - apply create_loop_shape.
  - exact Hnil.
Qed.

Lemma ids_from_lower (n : nat) : forall id,
  Forall (fun k => (id <= k)%Z) (ids_from id n).
Proof.
  induction n as [|n IH]; intro id; simpl; constructor; [lia|].
  eapply Forall_impl; [|apply IH]. simpl. intros k Hk. lia.
Qed.

Lemma ids_from_upper (n : nat) : forall id,
  Forall (fun k => (k < id + Z.of_nat n)%Z) (ids_from id n).
Proof.
  induction n as [|n IH]; intro id; simpl; constructor; [lia|].
  eapply Forall_impl; [|apply IH]. simpl. intros k Hk. lia.
Qed.

Lemma ids_from_sorted (n : nat) : forall id,
  StronglySorted Z.lt (ids_from id n).
Proof.
  induction n as [|n IH]; intro id; simpl; constructor; [apply IH|].
  eapply Forall_impl; [|apply ids_from_lower]. simpl. intros k Hk. lia.
Qed.

Lemma StronglySorted_app_lt (l1 l2 : list Z) (bound : Z) :
  StronglySorted Z.lt l1 -> StronglySorted Z.lt l2 ->
  Forall (fun k => (k < bound)%Z) l1 -> Forall (fun k => (bound <= k)%Z) l2 ->
  StronglySorted Z.lt (l1 ++ l2).
Proof.
  intros H1 H2 Hlt Hge. induction H1 as [|x l1 Hs IH Hx]; simpl; [exact H2|].
  inversion Hlt as [|? ? Hxb Hl1]; subst.
  constructor; [apply IH; exact Hl1|].
  apply Forall_app. split; [exact Hx|].
  eapply Forall_impl; [|exact Hge]. simpl. intros k Hk. lia.
Qed.

(** X6.  Track identifiers are never reused: if the identifiers in the
    history increase strictly and lie below [next_id], this still holds
    after any [update], whether it returns or raises. *)
Theorem update_keeps_ids_increasing (detections : list Defect) (frame_id : Z)
    (s : TemporalTracker) :
  ids_ok s -> ids_ok (fst (update detections frame_id s)).
Proof.
  intros [Hsorted Hbelow].
  destruct (update_shape detections frame_id s)
    as (new & Ht & Hn & Hids & _).
  unfold ids_ok. rewrite Ht, Hn, map_app, Hids. split.
  - apply (StronglySorted_app_lt _ _ (next_id s)).
    + exact Hsorted.
    + apply ids_from_sorted.
    + apply Forall_map. exact Hbelow.
    + apply ids_from_lower.
  - apply Forall_app. split.
    + eapply Forall_impl; [|exact Hbelow]. simpl. intros t Hlt. lia.
    + assert (H : Forall (fun k => (k < next_id s + Z.of_nat (List.length new))%Z)
                    (map track_id new)).
      { rewrite Hids. apply ids_from_upper. }
      apply Forall_map in H. exact H.
Qed.

Lemma update_keeps_ids_increasing_witness :
  ids_ok (fst (update [crack_detection; mold_detection] 4
                 tracker_after_first_frame)).
Proof.
  apply (update_keeps_ids_increasing [crack_detection; mold_detection] 4
           tracker_after_first_frame).
  split.
  - repeat constructor.
  - repeat constructor.
Defined.

(* ------------------------------------------------------------------ *)
(** ** The tracker: reachable states and the summary *)

Lemma ids_from_app (n m : nat) : forall id,
  ids_from id (n + m) = ids_from id n ++ ids_from (id + Z.of_nat n) m.
Proof.
  induction n as [|n IH]; intro id.
  - simpl. rewrite Z.add_0_r. reflexivity.
  - cbn [Nat.add ids_from app]. rewrite IH.
    replace (id + 1 + Z.of_nat n)%Z with (id + Z.of_nat (S n))%Z by lia.
    reflexivity.
Qed.

Lemma reachable_shape (iou : Q) (dropout : Z) (s : TemporalTracker) :
  reachable iou dropout s ->
  Forall unmatched_shape (tracks s) /\
  map track_id (tracks s) = ids_from 1 (List.length (tracks s)) /\
  next_id s = (1 + Z.of_nat (List.length (tracks s)))%Z /\
  iou_threshold s = iou /\ max_dropout s = dropout.
Proof.
  induction 1 as [|s detections frame_id Hreach IH].
  - simpl. repeat split. constructor.
  - destruct IH as (Hshape & Hids & Hnext & Hi & Hm).
    destruct (update_shape detections frame_id s)
      as (new & Ht & Hn & Hnew & Hnshape & _ & Hi' & Hm').
    rewrite Ht, Hn, Hi', Hm', map_app, Hids, Hnew, Hnext, length_app.
    split; [apply Forall_app; split; assumption|].
    split; [rewrite ids_from_app; reflexivity|].
    split; [lia | split; assumption].
Qed.

Lemma filter_nil_Forall {A} (f : A -> bool) (l : list A) :
  Forall (fun x => f x = false) l -> filter f l = [].
Proof.
  induction 1 as [|x l Hx _ IH]; simpl; [reflexivity|].
  rewrite Hx. exact IH.
Qed.

(** X7.  In every tracker that [TemporalTracker(...)] and any sequence of
    [update] calls can produce, each track has [frames_seen = 1] and a
    single area sample, the identifiers are 1, 2, 3, ... in order of
    creation with [next_id] one past the last, and [get_summary] reports
    no persistent and no growing defect and an empty ['tracks'] list. *)
Theorem reachable_tracker_never_persistent (iou : Q) (dropout : Z)
    (s : TemporalTracker) :
  reachable iou dropout s ->
  Forall (fun t => frames_seen t = 1%Z /\ List.length (areas t) = 1%nat)
    (tracks s) /\
  map track_id (tracks s) = ids_from 1 (List.length (tracks s)) /\
  next_id s = (1 + Z.of_nat (List.length (tracks s)))%Z /\
  get_summary s
  = {| total_tracks := Z.of_nat (List.length (tracks s));
       persistent_defects_count := 0;
       growing_defects_count := 0;
       summary_tracks := [] |}.
Proof.
  intro Hreach.
  destruct (reachable_shape iou dropout s Hreach) as (Hshape & Hids & Hnext & _).
  split; [|split; [exact Hids | split; [exact Hnext|]]].
  - eapply Forall_impl; [|exact Hshape].
    intros t (Hf & _ & Ha & _). auto.
  - unfold get_summary.
    assert (Hp : filter (fun t => (3 <=? frames_seen t)%Z) (tracks s) = []).
    { apply filter_nil_Forall. eapply Forall_impl; [|exact Hshape].
      intros t (Hf & _). simpl. rewrite Hf. reflexivity. }
    rewrite Hp. reflexivity.
Qed.

Lemma reachable_tracker_never_persistent_witness :
  map frames_seen
    (tracks (fst (update [crack_detection] 9 tracker_after_first_frame)))
  = [1%Z; 1%Z] /\
  persistent_defects_count
    (get_summary (fst (update [crack_detection] 9 tracker_after_first_frame)))
  = 0%Z.
Proof.
  pose proof (reachable_tracker_never_persistent (3 # 10) 5
                (fst (update [crack_detection] 9 tracker_after_first_frame))
                (reach_update _ _ _ [crack_detection] 9
                   (reach_update _ _ _ [crack_detection] 1
                      (reach_new (3 # 10) 5))))
    as (_ & _ & _ & Hsum).
  split; [reflexivity|]. rewrite Hsum. reflexivity.
Defined.

Lemma filter_length_le {A} (f : A -> bool) (l : list A) :
  (List.length (filter f l) <= List.length l)%nat.
Proof.
  induction l as [|x l IH]; simpl; [lia|].
  destruct (f x); simpl; lia.
Qed.

(** X8.  On any tracker, [get_summary] reports counts with
    [0 <= growing <= persistent <= total]; its ['tracks'] list has one entry
    per persistent track, each with [frames_seen >= 3], and exactly
    [growing_defects_count] of them are flagged [is_growing]. *)
Theorem get_summary_counts (s : TemporalTracker) :
  (0 <= growing_defects_count (get_summary s))%Z /\
  (growing_defects_count (get_summary s)
   <= persistent_defects_count (get_summary s))%Z /\
  (persistent_defects_count (get_summary s) <= total_tracks (get_summary s))%Z /\
  Z.of_nat (List.length (summary_tracks (get_summary s)))
  = persistent_defects_count (get_summary s) /\
  Forall (fun e => (3 <= ts_frames_seen e)%Z) (summary_tracks (get_summary s)) /\
  Z.of_nat (List.length (filter ts_is_growing (summary_tracks (get_summary s))))
  = growing_defects_count (get_summary s).
Proof.
  unfold get_summary. simpl.
  set (persistent := filter (fun t => (3 <=? frames_seen t)%Z) (tracks s)).
  pose proof (filter_length_le (fun t => Py.ltb (5 # 100) (growth_rate t))
                persistent).
  pose proof (filter_length_le (fun t => (3 <=? frames_seen t)%Z) (tracks s)).
  fold persistent in H0.
  split; [lia|]. split; [lia|]. split; [lia|].
  split; [rewrite length_map; reflexivity|]. split.
  - apply Forall_map. apply Forall_forall. intros t Ht. simpl.
    apply filter_In in Ht. destruct Ht as [_ Ht]. apply Z.leb_le. exact Ht.
  - f_equal. clear H H0. induction persistent as [|t l IH]; [reflexivity|].
    simpl. destruct (Py.ltb (5 # 100) (growth_rate t)); simpl; rewrite IH;
      reflexivity.
Qed.

(** X9.  A track with at most three area samples has growth rate 0 (the
    first and the last window are the same samples), so [get_summary]
    never counts it as growing: growth needs at least four samples. *)
Theorem growth_rate_needs_four_samples (t : DefectTrack) :
  (List.length (areas t) <= 3)%nat ->
  growth_rate t == 0 /\ Py.ltb (5 # 100) (growth_rate t) = false.
Proof.
  intro Hlen.
  assert (H0 : growth_rate t == 0).
  { unfold growth_rate.
    destruct (Nat.ltb (List.length (areas t)) 2) eqn:E; [reflexivity|].
    apply Nat.ltb_ge in E.
    rewrite (Nat.min_r 3 (List.length (areas t))) by lia.
    unfold slice_first, slice_last.
    rewrite firstn_all, Nat.sub_diag. simpl skipn.
    destruct (Py.eqb _ 0) eqn:Ez; [reflexivity|].
    apply eqb_false in Ez.
    set (a := Py.sum (areas t) / inject_Z (Z.of_nat (List.length (areas t)))) in *.
    field. exact Ez. }
  split; [exact H0|].
  apply ltb_false. rewrite H0. discriminate.
Qed.

Lemma growth_rate_needs_four_samples_witness :
  growth_rate (track_with_areas [100; 150; 400]) == 0 /\
  Py.ltb (5 # 100) (growth_rate (track_with_areas [100; 150; 400])) = false.
Proof.
  apply (growth_rate_needs_four_samples (track_with_areas [100; 150; 400])).
  simpl. lia.
Defined.

(* ------------------------------------------------------------------ *)
(** ** The tracker: an update without active tracks *)

Lemma insert_desc_sorted (x : Q * Defect) (l : list (Q * Defect)) :
  StronglySorted (fun a b => fst b <= fst a) l ->
  StronglySorted (fun a b => fst b <= fst a) (insert_desc x l).
Proof.
  induction 1 as [|y l Hs IH Hy]; simpl.
  - constructor; constructor.
  - destruct (Py.ltb (fst x) (fst y)) eqn:E.
    + apply ltb_true in E. constructor; [exact IH|].
      apply (Permutation_Forall (insert_desc_perm x l)).
      constructor; [lra | exact Hy].
    + apply ltb_false in E. constructor.
      * constructor; assumption.
      * constructor; [exact E|].
        eapply Forall_impl; [|exact Hy]. simpl. intros z Hz. lra.
Qed.

Lemma sort_sorted (ks : list (Q * Defect)) :
  StronglySorted (fun a b => fst b <= fst a) (fold_right insert_desc [] ks).
Proof.
  induction ks as [|k ks IH]; simpl; [constructor|].
  apply insert_desc_sorted. exact IH.
Qed.

Lemma keyed_ok (dets : list Defect) :
  Forall (fun d => trackable d = true) dets ->
  keyed dets = Ok (map (fun d => (Py.get (d_confidence d) 0, d)) dets).
Proof.
  induction 1 as [|d rest Hd _ IH]; [reflexivity|].
  simpl. rewrite IH.
  destruct (trackable_fields d Hd) as (cls & c & bbox & _ & Hc & _).
  rewrite Hc. reflexivity.
Qed.

Lemma StronglySorted_keys (ks : list (Q * Defect)) :
  Forall (fun kd => fst kd = Py.get (d_confidence (snd kd)) 0) ks ->
  StronglySorted (fun a b => fst b <= fst a) ks ->
  by_descending_confidence (map snd ks).
Proof.
  unfold by_descending_confidence.
  intros Hk Hs. induction Hs as [|k ks Hs IH Hall]; simpl; [constructor|].
  inversion Hk as [|? ? Hk0 Hks]; subst.
  constructor; [apply IH; exact Hks|].
  apply Forall_map. rewrite Forall_forall in *.
  intros z Hz. rewrite <- Hk0, <- (Hks z Hz). apply Hall. exact Hz.
Qed.

(** The sort of line 67 on trackable detections: it returns a permutation
    in non-increasing order of confidence. *)
Lemma sorted_by_confidence_spec (dets : list Defect) :
  Forall (fun d => trackable d = true) dets ->
  exists sorted,
    sorted_by_confidence dets = Ok sorted /\
    Permutation dets sorted /\ by_descending_confidence sorted.
Proof.
  intro Hall. unfold sorted_by_confidence. rewrite (keyed_ok dets Hall). simpl.
  set (ks := map (fun d => (Py.get (d_confidence d) 0, d)) dets).
  eexists. split; [reflexivity|]. split.
  - assert (E : dets = map snd ks).
    { unfold ks. rewrite map_map. simpl. rewrite map_id. reflexivity. }
    rewrite E at 1. apply Permutation_map. apply sort_perm.
  - apply StronglySorted_keys; [|apply sort_sorted].
    apply (Permutation_Forall (sort_perm ks)).
    unfold ks. apply Forall_map. apply Forall_forall. intros d _. reflexivity.
Qed.

Lemma match_loop_no_active (frame_id : Z) (dets : list (nat * Defect)) :
  forall assigned matched s,
  Forall (fun id => trackable (snd id) = true) dets ->
  match_loop frame_id [] dets assigned matched s = (s, Ok assigned).
Proof.
  induction dets as [|[i det] rest IH]; intros assigned matched s Hall;
    [reflexivity|].
  inversion Hall as [|? ? Hd Hrest]; subst. simpl in Hd.
  destruct (trackable_fields det Hd) as (cls & c & bbox & _ & _ & Hb & Hlen).
  simpl. unfold t_bind, t_lift, t_get. rewrite Hb. simpl.
  rewrite (bbox_area_long bbox Hlen). simpl.
  apply IH. exact Hrest.
Qed.

Lemma create_loop_trackable (frame_id : Z) (dets : list (nat * Defect)) :
  forall s,
  Forall (fun id => trackable (snd id) = true) dets ->
  create_loop frame_id dets [] s
  = ({| tracks := tracks s ++ created_tracks frame_id (next_id s) (map snd dets);
        next_id := next_id s + Z.of_nat (List.length dets);
        iou_threshold := iou_threshold s;
        max_dropout := max_dropout s |}, Ok tt).
Proof.
  induction dets as [|[i det] rest IH]; intros s Hall.
  - simpl. unfold t_ret. rewrite app_nil_r, Z.add_0_r. destruct s; reflexivity.
  - inversion Hall as [|? ? Hd Hrest]; subst. simpl in Hd.
    destruct (trackable_fields det Hd) as (cls & c & bbox & Hc & Hconf & Hb & Hlen).
    cbn [create_loop existsb]. unfold new_track, t_bind, t_lift.
    rewrite Hb. simpl. rewrite (bbox_area_long bbox Hlen). simpl.
    rewrite Hc, Hconf. simpl. rewrite (IH _ Hrest). simpl.
    unfold created_track. rewrite Hc, Hconf, Hb. simpl.
    rewrite ?leading_numbers_map, ?numbers_of_box.
    rewrite <- app_assoc. simpl. f_equal. f_equal. lia.
Qed.

Lemma enumerate_length {A} (xs : list A) :
  List.length (enumerate xs) = List.length xs.
Proof.
  unfold enumerate. rewrite length_combine, length_seq. lia.
Qed.

(** An update without active tracks, as used across frames below. *)
Lemma update_no_active (detections : list Defect)
    (frame_id : Z) (s : TemporalTracker) :
  active_tracks_of s frame_id = [] ->
  Forall (fun d => trackable d = true) detections ->
  exists sorted,
    Permutation detections sorted /\
    by_descending_confidence sorted /\
    update detections frame_id s
    = ({| tracks := tracks s ++ created_tracks frame_id (next_id s) sorted;
          next_id := next_id s + Z.of_nat (List.length detections);
          iou_threshold := iou_threshold s;
          max_dropout := max_dropout s |}, Ok tt).
Proof.
  intros Hact Hall.
  destruct (sorted_by_confidence_spec detections Hall)
    as (sorted & Hs & Hperm & Hdesc).
  exists sorted. split; [exact Hperm|]. split; [exact Hdesc|].
  assert (Hall' : Forall (fun id => trackable (snd id) = true)
                    (enumerate sorted)).
  { apply (proj1 (@Forall_map _ _ snd (fun d => trackable d = true)
                     (enumerate sorted))).
    rewrite enumerate_snd. apply (Permutation_Forall Hperm). exact Hall. }
  unfold update, t_bind, t_get, t_lift. rewrite Hs, Hact. simpl.
  rewrite (match_loop_no_active frame_id _ [] [] s Hall').
  rewrite (create_loop_trackable frame_id _ s Hall').
  rewrite enumerate_snd, enumerate_length.
  rewrite (Permutation_length Hperm). reflexivity.
Qed.

(** X10.  When no track is active (a new tracker, or every track more than
    [max_dropout] frames old), [update] on trackable detections returns
    normally: it keeps the history and appends one new track per detection,
    in non-increasing order of confidence, with consecutive identifiers
    from [next_id], [frames_seen = 1] and [first_frame = last_frame =
    frame_id]; [next_id] advances by the number of detections. *)
Theorem update_without_active_tracks (detections : list Defect)
    (frame_id : Z) (s : TemporalTracker) :
  active_tracks_of s frame_id = [] ->
  Forall (fun d => trackable d = true) detections ->
  exists sorted,
    Permutation detections sorted /\
    by_descending_confidence sorted /\
    update detections frame_id s
    = ({| tracks := tracks s ++ created_tracks frame_id (next_id s) sorted;
          next_id := next_id s + Z.of_nat (List.length detections);
          iou_threshold := iou_threshold s;
          max_dropout := max_dropout s |}, Ok tt).
Proof. apply update_no_active. Qed.

Lemma update_without_active_tracks_witness :
  exists sorted,
    Permutation [crack_detection; with_confidence crack_detection 1] sorted /\
    by_descending_confidence sorted /\
    update [crack_detection; with_confidence crack_detection 1] 7
      tracker_after_first_frame
    = ({| tracks := tracks tracker_after_first_frame
                    ++ created_tracks 7 (next_id tracker_after_first_frame)
                         sorted;
          next_id := next_id tracker_after_first_frame + 2;
          iou_threshold := iou_threshold tracker_after_first_frame;
          max_dropout := max_dropout tracker_after_first_frame |}, Ok tt).
Proof.
  apply (update_without_active_tracks
           [crack_detection; with_confidence crack_detection 1] 7
           tracker_after_first_frame).
  - reflexivity.
  - repeat constructor.
Defined.

(* ------------------------------------------------------------------ *)
(** ** The tracker across frames *)

Lemma enumerate_Forall {A} (P : A -> Prop) (xs : list A) :
  Forall P xs -> Forall (fun ix => P (snd ix)) (enumerate xs).
Proof.
  intro H.
  apply (proj1 (@Forall_map _ _ snd P (enumerate xs))).
  rewrite enumerate_snd. exact H.
Qed.

Lemma no_active_when_old (s : TemporalTracker) (prev frame_id : Z) :
  Forall (fun t => (last_frame t <= prev)%Z) (tracks s) ->
  (max_dropout s < frame_id - prev)%Z ->
  active_tracks_of s frame_id = [].
Proof.
  intros Hold Hgap. unfold active_tracks_of.
  rewrite filter_nil_Forall; [reflexivity|].
  apply enumerate_Forall in Hold.
  eapply Forall_impl; [|exact Hold]. simpl. intros it Hit.
  apply Z.leb_gt. lia.
Qed.

Lemma created_tracks_shape (frame_id : Z) (dets : list Defect) : forall id,
  List.length (created_tracks frame_id id dets) = List.length dets /\
  Forall (fun t => frames_seen t = 1%Z /\ last_frame t = frame_id)
    (created_tracks frame_id id dets).
Proof.
  induction dets as [|d rest IH]; intro id; simpl.
  - split; [reflexivity | constructor].
  - destruct (IH (id + 1)%Z) as [Hl Hf]. split; [lia|].
    constructor; [split; reflexivity | exact Hf].
Qed.

(** X11.  A session whose frames are each more than [max_dropout] frame
    numbers apart (the first one that far after every track already in the
    history) never matches and never raises on trackable detections:
    every [update] returns, and the session ends with one new track per
    detection, each with [frames_seen = 1]. *)
Theorem run_updates_well_spaced (frames : list (list Defect * Z)) :
  forall (s : TemporalTracker) (prev : Z),
  (0 <= max_dropout s)%Z ->
  Forall (fun t => (last_frame t <= prev)%Z) (tracks s) ->
  well_spaced (max_dropout s) prev frames ->
  Forall (fun fr => Forall (fun d => trackable d = true) (fst fr)) frames ->
  exists new,
    snd (run_updates frames s) = Ok tt /\
    tracks (fst (run_updates frames s)) = tracks s ++ new /\
    List.length new = List.length (List.concat (map fst frames)) /\
    Forall (fun t => frames_seen t = 1%Z) new.
Proof.
  induction frames as [|[dets f] rest IH]; intros s prev Hdrop Hold Hsp Hall.
  - exists []. simpl. rewrite app_nil_r. repeat split. constructor.
  - simpl in Hsp. destruct Hsp as [Hgap Hsp].
    inversion Hall as [|? ? Hdets Hrest]; subst. simpl in Hdets.
    destruct (update_no_active dets f s
                (no_active_when_old s prev f Hold Hgap) Hdets)
      as (sorted & Hperm & _ & Hupd).
    destruct (created_tracks_shape f sorted (next_id s)) as [Hlen Hshape].
    simpl. unfold t_bind. rewrite Hupd.
    match goal with
    | |- context [run_updates rest ?s1] =>
        destruct (IH s1 f) as (new & Hout & Ht & Hn & Hseen)
    end.
    + exact Hdrop.
    + simpl. apply Forall_app. split.
      * eapply Forall_impl; [|exact Hold]. simpl. intros t Ht. lia.
      * eapply Forall_impl; [|exact Hshape]. simpl. intros t [_ Hl]. lia.
    + exact Hsp.
    + exact Hrest.
    + simpl in Ht.
      exists (created_tracks f (next_id s) sorted ++ new).
      split; [exact Hout|]. split; [rewrite Ht, app_assoc; reflexivity|].
      split.
      * rewrite !length_app, Hlen, Hn, (Permutation_length Hperm). reflexivity.
      * apply Forall_app. split; [|exact Hseen].
        eapply Forall_impl; [|exact Hshape]. simpl. intros t [Hf _]. exact Hf.
Qed.

Lemma run_updates_well_spaced_witness :
  exists new,
    snd (run_updates [([crack_detection], 0%Z); ([crack_detection], 6%Z);
                      ([crack_detection; crack_detection], 12%Z)]
           new_TemporalTracker) = Ok tt /\
    tracks (fst (run_updates [([crack_detection], 0%Z); ([crack_detection], 6%Z);
                              ([crack_detection; crack_detection], 12%Z)]
                   new_TemporalTracker)) = [] ++ new /\
    List.length new = 4%nat /\
    Forall (fun t => frames_seen t = 1%Z) new.
Proof.
  apply (run_updates_well_spaced
           [([crack_detection], 0%Z); ([crack_detection], 6%Z);
            ([crack_detection; crack_detection], 12%Z)]
           new_TemporalTracker (-6)).
  - discriminate.
  - constructor.
  - simpl. repeat split.
  - repeat constructor.
Defined.

(** The second of two frames with detections, five frame numbers apart,
    raises. *)
Lemma update_active_raises_witness :
  exists e,
    update [crack_detection] 6
      (fst (update [crack_detection] 1 new_TemporalTracker))
    = (fst (update [crack_detection] 1 new_TemporalTracker), Raise e).
Proof.
  apply (update_active_raises [crack_detection] 6
           (fst (update [crack_detection] 1 new_TemporalTracker)));
    discriminate.
Defined.

(* ------------------------------------------------------------------ *)
(** ** The scorer: range of the score *)


(** The score of a returned result, from the loop's total. *)
Lemma calculate_score_inversion (self : RiskScorer) (w : World)
    (d : Defect) (rest : list Defect) (image_area : Z)
    (user_context : option UserContext) (r : ScoreResult) :
  outcome (calculate_score self w (d :: rest) image_area user_context) = Ok r ->
  exists st,
    defects_loop self (climate_adjustments_of user_context) image_area
      loop_start (d :: rest) = Ok st /\
    score r = final_score_of self (ls_total_penalty st)
                (age_penalty_of user_context) /\
    risk_level r = risk_level_of (score r) /\
    breakdown r = ls_breakdown st /\
    defect_count r = Z.of_nat (List.length (d :: rest)) /\
    pb_by_defect_type (penalty_breakdown r)
    = Some (map (fun kv => (fst kv, Py.round2 (snd kv)))
              (ls_penalty_by_type st)).
Proof.
  intro Hr.
  destruct (defects_loop self (climate_adjustments_of user_context) image_area
              loop_start (d :: rest)) as [st|e] eqn:Hloop.
  - exists st. split; [reflexivity|].
    revert Hr. unfold calculate_score.
    fold (climate_adjustments_of user_context). fold loop_start.
    rewrite Hloop, age_penalty_guard.
    destruct (cortex_insights self w (d :: rest) user_context _)
      as [[[self' ai] acts] fx].
    unfold outcome. simpl. intro H. injection H as <-. simpl.
    repeat split; reflexivity.
  - exfalso. revert Hr. unfold calculate_score.
    fold (climate_adjustments_of user_context). fold loop_start.
    rewrite Hloop. discriminate.
Qed.


(** X13.  Whenever [calculate_score] returns, the score is at least 0; for
    detections within the data model's ranges, the specified configuration
    and a positive image area it is at most 100. *)
Theorem calculate_score_score_range (self : RiskScorer) (w : World)
    (defects : list Defect) (image_area : Z)
    (user_context : option UserContext) (r : ScoreResult) :
  outcome (calculate_score self w defects image_area user_context) = Ok r ->
  (0 <= score r)%Z /\
  (sane_config self -> (0 < image_area)%Z ->
   Forall (fun d => in_range d = true) defects -> (score r <= 100)%Z).
Proof.
  intro Hr. destruct defects as [|d rest].
  - unfold outcome in Hr. simpl in Hr. injection Hr as <-. simpl.
    split; [lia | intros; lia].
  - destruct (calculate_score_inversion self w d rest image_area user_context
                r Hr) as (st & Hloop & Hs & _).
    split; [rewrite Hs; apply final_score_nonneg|].
    intros Hcfg Hia Hall.
    assert (Hok : Forall (area_defined image_area)
                    (d :: rest)).
    { apply Forall_area_ok; [apply Forall_in_range_box; exact Hall | left; lia]. }
    destruct (defects_loop_total self (climate_adjustments_of user_context)
                image_area (d :: rest) loop_start Hok) as (st' & Hloop' & Htot).
    rewrite Hloop in Hloop'. injection Hloop' as <-.
    rewrite Hs. apply final_score_le_100; [exact Hcfg | | apply age_penalty_nonneg].
    rewrite Htot. simpl.
    pose proof (total_value_nonneg self image_area user_context (d :: rest)
                  Hcfg Hia Hall). lra.
Qed.

Lemma calculate_score_score_range_witness :
  exists r,
    outcome (calculate_score new_RiskScorer offline_world
               [mold_detection; crack_detection] (640 * 480)
               pre_1950_context) = Ok r /\
    (0 <= score r)%Z /\ (score r <= 100)%Z.
Proof.
  destruct (calculate_score_returns new_RiskScorer offline_world
              [mold_detection; crack_detection] (640 * 480) pre_1950_context
              ltac:(repeat constructor)
              (or_introl image_area_nonzero)) as [r Hr].
  exists r. split; [exact Hr|].
  destruct (calculate_score_score_range new_RiskScorer offline_world
              [mold_detection; crack_detection] (640 * 480) pre_1950_context
              r Hr) as [H0 H100].
  split; [exact H0|].
  apply H100; [exact new_RiskScorer_sane | reflexivity | repeat constructor].
Defined.



(** X15.  With [image_area = 0], a list of detections with boxes of
    numbers in which some detection reads the image area (no
    affected_area_percent, a box of four coordinates) ends in
    [ZeroDivisionError]: no result, no effect, the scorer unchanged. *)
Theorem calculate_score_zero_area (self : RiskScorer) (w : World)
    (defects : list Defect) (user_context : option UserContext) :
  boxes_of_numbers defects ->
  Exists (fun d => reads_image_area d = true) defects ->
  calculate_score self w defects 0 user_context
  = (Raise ZeroDivisionError, self, []).
Proof.
  intros Hbox Hex.
  assert (Hloop : forall st,
            defects_loop self (climate_adjustments_of user_context) 0 st defects
            = Raise ZeroDivisionError).
  { induction Hex as [d rest Hd | d rest Hrest IH]; intro st.
    - simpl. unfold loop_body, defect_penalty.
      rewrite (area_factor_zero_area 0 d eq_refl Hd). reflexivity.
    - inversion Hbox as [|? ? Hd Hbrest]; subst.
      simpl. unfold loop_body.
      destruct (defect_penalty self _ 0 d) as [p|e] eqn:Hp; simpl.
      + apply IH. exact Hbrest.
      + apply defect_penalty_raises in Hp; [|exact Hd]. subst e.
        reflexivity. }
  unfold calculate_score. destruct defects as [|d rest]; [inversion Hex|].
  fold (climate_adjustments_of user_context). rewrite Hloop. reflexivity.
Qed.

Lemma calculate_score_zero_area_witness :
  calculate_score new_RiskScorer offline_world
    [mold_detection; crack_detection] 0 None
  = (Raise ZeroDivisionError, new_RiskScorer, []).
Proof.
  apply (calculate_score_zero_area new_RiskScorer offline_world
           [mold_detection; crack_detection] None).
  - repeat constructor.
  - apply Exists_cons_tl. apply Exists_cons_hd. reflexivity.
Defined.

(* ------------------------------------------------------------------ *)
(** ** The scorer: classes and context keys *)

Lemma defects_loop_congr (self : RiskScorer) (adj adj' : dict Q)
    (image_area : Z) (l l' : list Defect) :
  Forall2 (fun d d' => forall st,
             loop_body self adj image_area st d
             = loop_body self adj' image_area st d') l l' ->
  forall st,
    defects_loop self adj image_area st l
    = defects_loop self adj' image_area st l'.
Proof.
  induction 1 as [|d d' l l' Hd _ IH]; intro st; [reflexivity|].
  simpl. rewrite Hd.
  destruct (loop_body self adj' image_area st d'); simpl;
    [apply IH | reflexivity].
Qed.

Lemma calculate_score_same_numbers (self : RiskScorer) (w w' : World)
    (l l' : list Defect) (image_area : Z)
    (user_context user_context' : option UserContext) :
  List.length l = List.length l' ->
  (forall st,
     defects_loop self (climate_adjustments_of user_context) image_area st l
     = defects_loop self (climate_adjustments_of user_context') image_area st l') ->
  age_penalty_of user_context = age_penalty_of user_context' ->
  same_numbers
    (outcome (calculate_score self w l image_area user_context))
    (outcome (calculate_score self w' l' image_area user_context')).
Proof.
  intros Hlen Hloop Hage. unfold calculate_score.
  destruct l as [|d rest]; destruct l' as [|d' rest']; try discriminate;
    [reflexivity|].
  fold (climate_adjustments_of user_context).
  fold (climate_adjustments_of user_context').
  rewrite Hloop, !age_penalty_guard, Hage.
  destruct (defects_loop self _ image_area _ (d' :: rest')) as [st|e];
    [|reflexivity].
  destruct (cortex_insights self w (d :: rest) user_context _)
    as [[[s1 ai1] acts1] fx1].
  destruct (cortex_insights self w' (d' :: rest') user_context' _)
    as [[[s2 ai2] acts2] fx2].
  simpl in Hlen. injection Hlen as Hlen.
  unfold outcome, same_numbers, numbers. simpl. rewrite Hlen. reflexivity.
Qed.

Lemma Forall2_refl_app {A} (R : A -> A -> Prop) (l1 l2 : list A) (x y : A) :
  (forall a, R a a) -> R x y -> Forall2 R (l1 ++ x :: l2) (l1 ++ y :: l2).
Proof.
  intros Hrefl Hxy. apply Forall2_app.
  - induction l1; constructor; auto.
  - constructor; [exact Hxy|]. induction l2; constructor; auto.
Qed.

(** X16.  Classes are matched without regard to letter case: writing a
    detection's class in another case changes nothing in the score, the
    risk level, the penalties or the breakdown. *)
Theorem class_case_insensitive (self : RiskScorer) (w w' : World)
    (l1 l2 : list Defect) (d : Defect) (cls' : string) (image_area : Z)
    (user_context : option UserContext) :
  Py.lower cls' = defect_class_of d ->
  same_numbers
    (outcome (calculate_score self w (l1 ++ d :: l2) image_area user_context))
    (outcome (calculate_score self w' (l1 ++ with_class d cls' :: l2)
                image_area user_context)).
Proof.
  intro Hcls. apply calculate_score_same_numbers.
  - rewrite !length_app. reflexivity.
  - apply defects_loop_congr. apply Forall2_refl_app; [reflexivity|].
    intro st. unfold loop_body, defect_penalty, area_factor, defect_class_of.
    simpl. fold (defect_class_of d). rewrite Hcls. reflexivity.
  - reflexivity.
Qed.

Lemma class_case_insensitive_witness :
  same_numbers
    (outcome (calculate_score new_RiskScorer offline_world [mold_detection]
                (640 * 480) hot_humid_context))
    (outcome (calculate_score new_RiskScorer (cortex_world "A")
                [with_class mold_detection "MoLD"] (640 * 480)
                hot_humid_context)).
Proof.
  apply (class_case_insensitive new_RiskScorer offline_world (cortex_world "A")
           [] [] mold_detection "MoLD" (640 * 480) hot_humid_context).
  reflexivity.
Defined.

Lemma neutral_context_adjustments (user_context : option UserContext) :
  neutral_context user_context ->
  climate_adjustments_of user_context = [] /\
  age_penalty_of user_context = 0.
Proof.
  destruct user_context as [[cl age]|]; [|split; reflexivity].
  unfold neutral_context. cbn [uc_climate uc_building_age].
  intros [Hc Ha]. split.
  - unfold climate_adjustments_of, climate_of, truthy_context.
    cbn [uc_climate uc_building_age].
    destruct cl as [k|].
    + unfold Py.get.
      destruct (Hc k eq_refl) as [Hnone | ->]; [|reflexivity].
      unfold dict_get. rewrite Hnone. reflexivity.
    + destruct age; reflexivity.
  - unfold age_penalty_of. cbn [uc_building_age].
    destruct age as [k|]; [|reflexivity].
    destruct (Ha k eq_refl) as [Hnone | ->]; [|reflexivity].
    unfold dict_get. rewrite Hnone. reflexivity.
Qed.

(** X17.  A context whose climate and building-age keys are absent, unknown
    to the tables, or the neutral entries gives the score, risk level,
    penalties and breakdown of a call without context: unknown keys raise
    nothing and adjust nothing. *)
Theorem neutral_context_no_adjustment (self : RiskScorer) (w w' : World)
    (defects : list Defect) (image_area : Z)
    (user_context : option UserContext) :
  neutral_context user_context ->
  same_numbers
    (outcome (calculate_score self w defects image_area user_context))
    (outcome (calculate_score self w' defects image_area None)).
Proof.
  intro Hn. destruct (neutral_context_adjustments user_context Hn) as [Hc Ha].
  apply calculate_score_same_numbers.
  - reflexivity.
  - intro st. rewrite Hc. reflexivity.
  - rewrite Ha. reflexivity.
Qed.

Lemma neutral_context_no_adjustment_witness :
  same_numbers
    (outcome (calculate_score new_RiskScorer offline_world
                [mold_detection; crack_detection] (640 * 480)
                (Some {| uc_climate := Some "tropical"%string;
                         uc_building_age := Some "pre_1900"%string |})))
    (outcome (calculate_score new_RiskScorer offline_world
                [mold_detection; crack_detection] (640 * 480) None)).
Proof.
  apply (neutral_context_no_adjustment new_RiskScorer offline_world
           offline_world [mold_detection; crack_detection] (640 * 480)).
  simpl. split; intros k Hk; injection Hk as <-; left; reflexivity.
Defined.

(* ------------------------------------------------------------------ *)
(** ** The scorer: the breakdowns *)





(** *** The per-class totals *)








Lemma round2_comp (x y : Q) : x == y -> Py.round2 x = Py.round2 y.
Proof.
  intro H. unfold Py.round2.
  rewrite (round_comp (x * 100) (y * 100)); [reflexivity|].
  rewrite H. reflexivity.
Qed.



(* ------------------------------------------------------------------ *)
(** ** The scorer: the lazily loaded Cortex handle *)

Lemma cached_handle_call (self : RiskScorer) (w : World)
    (defects : list Defect) (image_area : Z)
    (user_context : option UserContext) :
  cortex_analytics self = true ->
  scorer_after (calculate_score self w defects image_area user_context) = self /\
  ~ In ImportSnowflake
      (effects (calculate_score self w defects image_area user_context)).
Proof.
  intro Hc. unfold calculate_score.
  destruct defects as [|d rest]; [split; [reflexivity | intros []]|].
  destruct (defects_loop self _ image_area _ (d :: rest)) as [st|e];
    [|split; [reflexivity | intros []]].
  unfold cortex_insights, _get_cortex_analytics. rewrite Hc. simpl.
  destruct (analyze_with_cortex w (d :: rest) user_context) as [res|];
    unfold scorer_after, effects; simpl;
    (split; [reflexivity|]); intro H;
    repeat (destruct H as [H|H]; [discriminate|]); exact H.
Qed.

(** X20.  The Cortex handle is loaded lazily and only a successful load is
    kept.  After a call that could import the analytics module, the scorer
    holds the handle and no later call imports again or changes the scorer.
    When the import fails, the scorer is left as it was (so every call
    tries again), the call logs a warning and returns the risk band's own
    actions without an explanation. *)
Theorem cortex_handle_is_cached (self : RiskScorer) (w : World)
    (d : Defect) (rest : list Defect) (image_area : Z)
    (user_context : option UserContext) (r : ScoreResult) :
  enable_cortex_ai self = true ->
  outcome (calculate_score self w (d :: rest) image_area user_context) = Ok r ->
  (snowflake_importable w = true ->
   cortex_analytics
     (scorer_after (calculate_score self w (d :: rest) image_area user_context))
   = true /\
   forall w' defects' image_area' user_context',
     scorer_after
       (calculate_score
          (scorer_after (calculate_score self w (d :: rest) image_area
                           user_context))
          w' defects' image_area' user_context')
     = scorer_after (calculate_score self w (d :: rest) image_area user_context)
     /\
     ~ In ImportSnowflake
         (effects
            (calculate_score
               (scorer_after (calculate_score self w (d :: rest) image_area
                                user_context))
               w' defects' image_area' user_context'))) /\
  (snowflake_importable w = false -> cortex_analytics self = false ->
   scorer_after (calculate_score self w (d :: rest) image_area user_context)
   = self /\
   effects (calculate_score self w (d :: rest) image_area user_context)
   = [ImportSnowflake; LogWarning; LogInfo] /\
   ai_explanation r = None /\
   recommended_actions r = actions_of (score r)).
Proof.
  intros Hen Hr. split.
  - intro Himp.
    assert (Hc : cortex_analytics
                   (scorer_after (calculate_score self w (d :: rest) image_area
                                    user_context)) = true).
    { revert Hr. unfold calculate_score.
      destruct (defects_loop self _ image_area _ (d :: rest)) as [st|e];
        [|discriminate].
      intros _. unfold cortex_insights, _get_cortex_analytics.
      rewrite Hen, Himp.
      destruct (cortex_analytics self) eqn:Hca; simpl;
        destruct (analyze_with_cortex w (d :: rest) user_context);
        unfold scorer_after; simpl; auto. }
    split; [exact Hc|]. intros w' defects' image_area' user_context'.
    apply cached_handle_call. exact Hc.
  - intros Himp Hca. revert Hr. unfold calculate_score.
    destruct (defects_loop self _ image_area _ (d :: rest)) as [st|e];
      [|discriminate].
    unfold cortex_insights, _get_cortex_analytics.
    rewrite Hen, Himp, Hca. unfold outcome, scorer_after, effects. simpl.
    intro H. injection H as <-. simpl. auto.
Qed.

Lemma cortex_handle_is_cached_witness :
  cortex_analytics
    (scorer_after (calculate_score new_RiskScorer (cortex_world "A")
                     [mold_detection] (640 * 480) None)) = true /\
  effects (calculate_score new_RiskScorer offline_world [mold_detection]
             (640 * 480) None)
  = [ImportSnowflake; LogWarning; LogInfo].
Proof.
  split.
  - destruct (calculate_score_returns new_RiskScorer (cortex_world "A")
                [mold_detection] (640 * 480) None
                ltac:(repeat constructor)
              (or_introl image_area_nonzero)) as [r Hr].
    apply (proj1 (cortex_handle_is_cached new_RiskScorer (cortex_world "A")
                    mold_detection [] (640 * 480) None r eq_refl Hr)).
    reflexivity.
  - destruct (calculate_score_returns new_RiskScorer offline_world
                [mold_detection] (640 * 480) None
                ltac:(repeat constructor)
              (or_introl image_area_nonzero)) as [r Hr].
    apply (proj2 (cortex_handle_is_cached new_RiskScorer offline_world
                    mold_detection [] (640 * 480) None r eq_refl Hr));
      reflexivity.
Defined.

(* ------------------------------------------------------------------ *)
(** ** Aggregation: bounds, order of the frames, worst frame *)

Lemma sum_lower_bound (m : Z) (xs : list Z) :
  Forall (fun x => (m <= x)%Z) xs ->
  (m * Z.of_nat (List.length xs) <= fold_right Z.add 0 xs)%Z.
Proof.
  induction 1 as [|x xs Hx _ IH]; simpl List.length; simpl fold_right; lia.
Qed.

Lemma sum_upper_bound (m : Z) (xs : list Z) :
  Forall (fun x => (x <= m)%Z) xs ->
  (fold_right Z.add 0 xs <= m * Z.of_nat (List.length xs))%Z.
Proof.
  induction 1 as [|x xs Hx _ IH]; simpl List.length; simpl fold_right; lia.
Qed.

Lemma mean_score_denominator (x0 : Z) (xs : list Z) :
  0 < inject_Z (Z.of_nat (List.length (x0 :: xs))).
Proof.
  change 0 with (inject_Z 0). rewrite <- Zlt_Qlt. simpl. lia.
Qed.

Lemma mean_score_lower (x0 : Z) (xs : list Z) (lo : Z) :
  Forall (fun x => (lo <= x)%Z) (x0 :: xs) ->
  inject_Z lo <= mean_score (x0 :: xs).
Proof.
  intro Hlo. unfold mean_score.
  apply Qle_shift_div_l; [apply mean_score_denominator|].
  rewrite <- inject_Z_mult, <- Zle_Qle.
  apply sum_lower_bound. exact Hlo.
Qed.

Lemma mean_score_upper (x0 : Z) (xs : list Z) (hi : Z) :
  Forall (fun x => (x <= hi)%Z) (x0 :: xs) ->
  mean_score (x0 :: xs) <= inject_Z hi.
Proof.
  intro Hhi. unfold mean_score.
  apply Qle_shift_div_r; [apply mean_score_denominator|].
  rewrite <- inject_Z_mult, <- Zle_Qle.
  apply sum_upper_bound. exact Hhi.
Qed.

(** X21.  On a non-empty list of frames that carry a score and a defect
    count, [aggregate_scores] counts the frames, adds up their defect
    counts and concatenates their breakdowns in order; the conservative
    score is at most the reported average, and the average is at most the
    best frame's score. *)
Theorem aggregate_scores_bounds (self : RiskScorer) (w : World)
    (s0 : FrameScore) (rest : list FrameScore) :
  Forall (fun fs => has_score_and_count fs = true) (s0 :: rest) ->
  exists a,
    outcome (aggregate_scores self w (s0 :: rest)) = Ok (Session a) /\
    frames_analyzed a = Z.of_nat (List.length (s0 :: rest)) /\
    total_defects_found a
    = fold_right Z.add 0%Z (map count_of_frame (s0 :: rest)) /\
    defect_breakdown a = List.concat (map breakdown_of_frame (s0 :: rest)) /\
    (agg_score a <= average_score a)%Z /\
    (forall best,
       Forall (fun fs => (score_of_frame fs <= best)%Z) (s0 :: rest) ->
       (average_score a <= best)%Z).
Proof.
  intro Hall. rewrite (aggregate_scores_session self w s0 rest Hall).
  eexists. split; [reflexivity|]. unfold session_of.
  cbn [frames_analyzed total_defects_found defect_breakdown agg_score
       average_score].
  split; [reflexivity|]. split; [reflexivity|].
  split; [rewrite flat_map_concat_map; reflexivity|].
  destruct (min_Z_least (score_of_frame s0) (map score_of_frame rest))
    as [_ Hmin].
  split.
  - rewrite <- (round_Z (min_Z _ _)) at 1. apply round_mono.
    cbn [map]. apply mean_score_lower. exact Hmin.
  - intros best Hbest. rewrite <- (round_Z best). apply round_mono.
    cbn [map]. apply mean_score_upper.
    change (score_of_frame s0 :: map score_of_frame rest)
      with (map score_of_frame (s0 :: rest)).
    apply Forall_map. exact Hbest.
Qed.

Lemma aggregate_scores_bounds_witness :
  exists a,
    outcome (aggregate_scores new_RiskScorer offline_world
               [frame_with_score 80 1; frame_with_score 40 3;
                frame_with_score 90 0]) = Ok (Session a) /\
    total_defects_found a = 4%Z /\
    (agg_score a <= average_score a)%Z /\ (average_score a <= 90)%Z.
Proof.
  destruct (aggregate_scores_bounds new_RiskScorer offline_world
              (frame_with_score 80 1)
              [frame_with_score 40 3; frame_with_score 90 0])
    as (a & Ha & _ & Htot & _ & Hmin & Hmax).
  - repeat constructor.
  - exists a. split; [exact Ha|]. split; [exact Htot|].
    split; [exact Hmin|].
    apply Hmax. repeat constructor; discriminate.
Defined.

Lemma fold_add_perm (xs ys : list Z) :
  Permutation xs ys -> fold_right Z.add 0%Z xs = fold_right Z.add 0%Z ys.
Proof.
  induction 1; simpl; lia.
Qed.

Lemma concat_perm {A} (l l' : list (list A)) :
  Permutation l l' -> Permutation (List.concat l) (List.concat l').
Proof.
  induction 1; simpl.
  - reflexivity.
  - apply Permutation_app_head. assumption.
  - rewrite !app_assoc. apply Permutation_app_tail. apply Permutation_app_comm.
  - etransitivity; eassumption.
Qed.

Lemma forallb_perm {A} (f : A -> bool) (l l' : list A) :
  Permutation l l' -> forallb f l = forallb f l'.
Proof.
  induction 1; simpl.
  - reflexivity.
  - rewrite IHPermutation. reflexivity.
  - destruct (f x), (f y); reflexivity.
  - congruence.
Qed.

Lemma min_Z_perm (x0 x0' : Z) (xs xs' : list Z) :
  Permutation (x0 :: xs) (x0' :: xs') -> min_Z x0 xs = min_Z x0' xs'.
Proof.
  intro Hp.
  destruct (min_Z_least x0 xs) as [Hin Hall].
  destruct (min_Z_least x0' xs') as [Hin' Hall'].
  rewrite Forall_forall in Hall, Hall'.
  pose proof (Hall' _ (Permutation_in _ Hp Hin)).
  pose proof (Hall _ (Permutation_in _ (Permutation_sym Hp) Hin')).
  lia.
Qed.

(** X22.  The order of the frames does not matter to [aggregate_scores]:
    on a permutation of the frames it raises the same exception or returns
    the same aggregate score, average, risk level, frame count and defect
    total, with [defect_breakdown] in another order. *)
Theorem aggregate_scores_permutation (self : RiskScorer) (w : World)
    (frame_scores frame_scores' : list FrameScore) :
  Permutation frame_scores frame_scores' ->
  same_aggregate (outcome (aggregate_scores self w frame_scores))
    (outcome (aggregate_scores self w frame_scores')).
Proof.
  intro Hp. destruct frame_scores as [|s0 rest].
  - apply Permutation_nil in Hp. subst frame_scores'. reflexivity.
  - destruct frame_scores' as [|s0' rest'];
      [apply Permutation_sym, Permutation_nil in Hp; discriminate|].
    rewrite !aggregate_scores_outcome. unfold outcome. cbn [fst].
    rewrite <- (forallb_perm has_score _ _ Hp),
      <- (forallb_perm has_defect_count _ _ Hp).
    destruct (forallb has_score (s0 :: rest)); [|reflexivity].
    destruct (forallb has_defect_count (s0 :: rest)); [|reflexivity].
    unfold same_aggregate, session_of.
    cbn [agg_score average_score agg_risk_level frames_analyzed
         total_defects_found defect_breakdown].
    pose proof (Permutation_map score_of_frame Hp) as Hps.
    rewrite (min_Z_perm (score_of_frame s0) (score_of_frame s0')
               (map score_of_frame rest) (map score_of_frame rest') Hps).
    split; [reflexivity|]. split; [|split; [reflexivity|split; [|split]]].
    + unfold mean_score. rewrite (fold_add_perm _ _ Hps).
      rewrite (Permutation_length Hps). reflexivity.
    + rewrite (Permutation_length Hp). reflexivity.
    + apply fold_add_perm. apply Permutation_map. exact Hp.
    + rewrite !flat_map_concat_map. apply concat_perm.
      apply Permutation_map. exact Hp.
Qed.

Lemma aggregate_scores_permutation_witness :
  same_aggregate
    (outcome (aggregate_scores new_RiskScorer offline_world
                [frame_with_score 80 1; frame_with_score 40 3;
                 frame_with_score 90 0]))
    (outcome (aggregate_scores new_RiskScorer offline_world
                [frame_with_score 40 3; frame_with_score 80 1;
                 frame_with_score 90 0])) /\
  same_aggregate
    (outcome (aggregate_scores new_RiskScorer offline_world
                [frame_with_score 80 1; score_only 40]))
    (outcome (aggregate_scores new_RiskScorer offline_world
                [score_only 40; frame_with_score 80 1])).
Proof.
  split.
  - apply (aggregate_scores_permutation new_RiskScorer offline_world
             [frame_with_score 80 1; frame_with_score 40 3;
              frame_with_score 90 0]
             [frame_with_score 40 3; frame_with_score 80 1;
              frame_with_score 90 0]).
    apply perm_swap.
  - apply (aggregate_scores_permutation new_RiskScorer offline_world
             [frame_with_score 80 1; score_only 40]
             [score_only 40; frame_with_score 80 1]).
    apply perm_swap.
Defined.

(** X23.  On frames that carry a score and a defect count, the aggregate
    risk level is that of the worst frame: it is "High Risk" exactly when
    some frame scores 30 or less, "Low Risk" exactly when every frame
    scores above 60, and "Moderate Risk" otherwise. *)
Theorem aggregate_risk_is_worst_frame (self : RiskScorer) (w : World)
    (s0 : FrameScore) (rest : list FrameScore) :
  Forall (fun fs => has_score_and_count fs = true) (s0 :: rest) ->
  exists a,
    outcome (aggregate_scores self w (s0 :: rest)) = Ok (Session a) /\
    (agg_risk_level a = "High Risk"%string <->
     Exists (fun fs => (score_of_frame fs <= 30)%Z) (s0 :: rest)) /\
    (agg_risk_level a = "Low Risk"%string <->
     Forall (fun fs => (60 < score_of_frame fs)%Z) (s0 :: rest)) /\
    (agg_risk_level a = "Moderate Risk"%string <->
     Forall (fun fs => (30 < score_of_frame fs)%Z) (s0 :: rest) /\
     Exists (fun fs => (score_of_frame fs <= 60)%Z) (s0 :: rest)).
Proof.
  intro Hkeys. rewrite (aggregate_scores_session self w s0 rest Hkeys).
  eexists. split; [reflexivity|]. unfold session_of. cbn [agg_risk_level].
  destruct (min_Z_least (score_of_frame s0) (map score_of_frame rest))
    as [Hin Hall].
  change (score_of_frame s0 :: map score_of_frame rest)
    with (map score_of_frame (s0 :: rest)) in Hin, Hall.
  apply in_map_iff in Hin. destruct Hin as (x & Hx & Hxin).
  rewrite Forall_map, Forall_forall in Hall.
  set (m := min_Z (score_of_frame s0) (map score_of_frame rest)) in *.
  assert (Hex : forall k, (m <= k)%Z <->
                  Exists (fun fs => (score_of_frame fs <= k)%Z) (s0 :: rest)).
  { intro k. rewrite Exists_exists. split.
    - intro H. exists x. split; [exact Hxin | lia].
    - intros (y & Hy & Hle). specialize (Hall y Hy). lia. }
  assert (Hfa : forall k, (k < m)%Z <->
                  Forall (fun fs => (k < score_of_frame fs)%Z) (s0 :: rest)).
  { intro k. rewrite Forall_forall. split.
    - intros H y Hy. specialize (Hall y Hy). lia.
    - intro H. specialize (H x Hxin). lia. }
  unfold risk_level_of.
  destruct (m <=? 30)%Z eqn:E30; [apply Z.leb_le in E30 | apply Z.leb_gt in E30];
    [|destruct (m <=? 60)%Z eqn:E60;
      [apply Z.leb_le in E60 | apply Z.leb_gt in E60]].
  - split; [|split].
    + split; [intros _; apply Hex; exact E30 | reflexivity].
    + split; [discriminate | intro H; apply Hfa in H; lia].
    + split; [discriminate | intros [H _]; apply Hfa in H; lia].
  - split; [|split].
    + split; [discriminate | intro H; apply Hex in H; lia].
    + split; [discriminate | intro H; apply Hfa in H; lia].
    + split; [intros _; split; [apply Hfa | apply Hex]; assumption
             | reflexivity].
  - split; [|split].
    + split; [discriminate | intro H; apply Hex in H; lia].
    + split; [intros _; apply Hfa; exact E60 | reflexivity].
    + split; [discriminate | intros [_ H]; apply Hex in H; lia].
Qed.

Lemma aggregate_risk_is_worst_frame_witness :
  exists a,
    outcome (aggregate_scores new_RiskScorer offline_world
               [frame_with_score 80 1; frame_with_score 25 3]) = Ok (Session a) /\
    agg_risk_level a = "High Risk"%string.
Proof.
  destruct (aggregate_risk_is_worst_frame new_RiskScorer offline_world
              (frame_with_score 80 1) [frame_with_score 25 3])
    as (a & Ha & Hhigh & _).
  - repeat constructor.
  - exists a. split; [exact Ha|]. apply Hhigh.
    apply Exists_cons_tl. apply Exists_cons_hd.
    unfold score_of_frame, frame_with_score. cbn. lia.
Defined.

(* ------------------------------------------------------------------ *)
(** ** The scorer with the local fallback analysis *)

Lemma local_actions_nonempty (join_set : list string -> string)
    (defects : list Defect) (user_context : option UserContext) :
  la_recommended_actions (_local_analysis join_set defects user_context) <> [].
Proof.
  unfold _local_analysis. destruct defects as [|d0 rest]; [discriminate|].
  cbv zeta.
  destruct (existsb _ critical_types);
    [|destruct (existsb _ high_types);
      [|destruct (Nat.ltb 5 _)]];
    cbn [la_recommended_actions];
    match goal with
    | |- (if ?c then _ else _) <> [] => destruct c
    end; discriminate.
Qed.

Lemma local_actions_critical (join_set : list string -> string)
    (defects : list Defect) (user_context : option UserContext) :
  Exists (fun d => In (defect_class_of d) critical_types) defects ->
  la_severity_assessment (_local_analysis join_set defects user_context)
  = "Critical"%string /\
  hd_error (la_recommended_actions
              (_local_analysis join_set defects user_context))
  = Some "Schedule immediate professional inspection"%string.
Proof.
  intro Hex. unfold _local_analysis.
  destruct defects as [|d0 rest]; [inversion Hex|]. cbv zeta.
  assert (Hc : existsb (fun t => existsb (String.eqb t)
                                   (map defect_class_of (d0 :: rest)))
                 critical_types = true).
  { apply Exists_exists in Hex. destruct Hex as (d & Hd & Hin).
    apply existsb_exists. exists (defect_class_of d). split; [exact Hin|].
    apply existsb_exists. exists (defect_class_of d).
    split; [apply in_map; exact Hd | apply String.eqb_refl]. }
  rewrite Hc. cbn [la_recommended_actions la_severity_assessment].
  split; [reflexivity|].
  match goal with
  | |- hd_error (if ?c then _ else _) = _ => destruct c
  end; reflexivity.
Qed.

Lemma cortex_insights_answer (self : RiskScorer) (w : World)
    (defects : list Defect) (user_context : option UserContext)
    (recommended : list string) (res : CortexAnalysisResult) :
  enable_cortex_ai self = true -> snowflake_importable w = true ->
  analyze_with_cortex w defects user_context = Some res ->
  cortex_recommended_actions res <> [] ->
  exists self' fx,
    cortex_insights self w defects user_context recommended
    = (self', Some (risk_explanation res), cortex_recommended_actions res, fx).
Proof.
  intros Hen Himp Hres Hne. unfold cortex_insights, _get_cortex_analytics.
  rewrite Hen, Himp.
  destruct (cortex_analytics self); simpl; rewrite Hres;
    destruct (cortex_recommended_actions res) as [|a acts];
    try contradiction; eexists; eexists; reflexivity.
Qed.

(** X24.  In a process that can import the analytics module but has no
    Snowflake session, an enabled scorer never reports the actions of the
    risk band: for every non-empty list it returns the (never empty)
    actions and the explanation of [_local_analysis], which depend on the
    classes, the number of detections and the building age, not on the
    score.  In particular a list with a mold, water_damage, leak or
    structural detection gets "Schedule immediate professional inspection"
    first, whatever the risk level. *)
Theorem local_fallback_overrides_actions (join_set : list string -> string)
    (self : RiskScorer) (d : Defect) (rest : list Defect) (image_area : Z)
    (user_context : option UserContext) (r : ScoreResult) :
  enable_cortex_ai self = true ->
  outcome (calculate_score self (local_fallback_world join_set) (d :: rest)
             image_area user_context) = Ok r ->
  recommended_actions r
  = la_recommended_actions (_local_analysis join_set (d :: rest) user_context) /\
  recommended_actions r <> [] /\
  ai_explanation r
  = Some (la_risk_explanation
            (_local_analysis join_set (d :: rest) user_context)) /\
  (Exists (fun d => In (defect_class_of d) critical_types) (d :: rest) ->
   hd_error (recommended_actions r)
   = Some "Schedule immediate professional inspection"%string).
Proof.
  intros Hen Hr.
  assert (Hacts : recommended_actions r
                  = la_recommended_actions
                      (_local_analysis join_set (d :: rest) user_context) /\
                  ai_explanation r
                  = Some (la_risk_explanation
                            (_local_analysis join_set (d :: rest) user_context))).
  { revert Hr. unfold calculate_score.
    destruct (defects_loop self _ image_area _ (d :: rest)) as [st|e];
      [|discriminate].
    match goal with
    | |- context [cortex_insights self ?w ?ds ?ctx ?recs] =>
        destruct (cortex_insights_answer self w ds ctx recs
                    {| risk_explanation :=
                         la_risk_explanation
                           (_local_analysis join_set (d :: rest) user_context);
                       cortex_recommended_actions :=
                         la_recommended_actions
                           (_local_analysis join_set (d :: rest) user_context) |}
                    Hen eq_refl eq_refl
                    (local_actions_nonempty join_set (d :: rest) user_context))
          as (self' & fx & Hci);
        rewrite Hci
    end.
    unfold outcome. cbn [fst]. intro H. injection H as <-.
    split; reflexivity. }
  destruct Hacts as [Ha He].
  split; [exact Ha|]. split; [rewrite Ha; apply local_actions_nonempty|].
  split; [exact He|].
  intro Hex. rewrite Ha.
  apply (local_actions_critical join_set (d :: rest) user_context Hex).
Qed.

Lemma local_fallback_overrides_actions_witness :
  exists r,
    outcome (calculate_score new_RiskScorer (local_fallback_world (String.concat ", "))
               [mold_detection] (640 * 480) hot_humid_context) = Ok r /\
    risk_level r = "Low Risk"%string /\
    hd_error (recommended_actions r)
    = Some "Schedule immediate professional inspection"%string.
Proof.
  destruct (calculate_score_returns new_RiskScorer
              (local_fallback_world (String.concat ", "))
              [mold_detection] (640 * 480) hot_humid_context
              ltac:(repeat constructor)
              (or_introl image_area_nonzero)) as [r Hr].
  exists r. split; [exact Hr|].
  destruct (local_fallback_overrides_actions (String.concat ", ")
              new_RiskScorer mold_detection [] (640 * 480) hot_humid_context r
              eq_refl Hr) as (_ & _ & _ & Hcrit).
  split.
  - revert Hr. vm_compute. intro H. injection H as <-. reflexivity.
  - apply Hcrit. apply Exists_cons_hd. simpl. left. reflexivity.
Defined.

(* ------------------------------------------------------------------ *)
(** ** Growth rate: what makes a track growing *)

(** The growth rate of a track with at least two samples and a non-zero
    first average. *)
Lemma growth_rate_value (t : DefectTrack) :
  (2 <= List.length (areas t))%nat ->
  let n := Nat.min 3 (List.length (areas t)) in
  ~ average (first_samples n (areas t)) n == 0 ->
  growth_rate t
  == (average (last_samples n (areas t)) n
      - average (first_samples n (areas t)) n)
     / average (first_samples n (areas t)) n.
Proof.
  intros Hlen n Hne. unfold growth_rate. fold n.
  apply Nat.ltb_ge in Hlen. rewrite Hlen.
  pose proof (code_average (slice_first n (areas t)) n) as Hs.
  pose proof (code_average (slice_last n (areas t)) n) as He.
  rewrite slice_last_samples in He. rewrite slice_last_samples.
  unfold slice_first in *. unfold first_samples in *.
  assert (E : Py.eqb (Py.sum (firstn n (areas t)) / inject_Z (Z.of_nat n)) 0
              = false).
  { apply eqb_false. rewrite Hs. exact Hne. }
  rewrite E, Hs, He. reflexivity.
Qed.

(** X25.  For a track of non-negative area samples with a positive
    first-window average, [get_summary] flags growth
    ([growth_rate > 0.05]) when the average of the last [min(3, n)] samples
    exceeds the average of the first [min(3, n)] by more than 5 percent,
    and does not flag it when the excess is less than 5 percent; the two
    bounds leave out the ratios within a millionth of 1.05, where binary64
    rounding decides. *)
Theorem growing_criterion (t : DefectTrack) :
  let n := Nat.min 3 (List.length (areas t)) in
  let start_avg := average (first_samples n (areas t)) n in
  let end_avg := average (last_samples n (areas t)) n in
  (2 <= List.length (areas t))%nat ->
  Forall (fun a => 0 <= a) (areas t) -> 0 < start_avg ->
  ((1050001 # 1000000) * start_avg <= end_avg ->
   Py.ltb (5 # 100) (growth_rate t) = true) /\
  (end_avg <= (1049999 # 1000000) * start_avg ->
   Py.ltb (5 # 100) (growth_rate t) = false).
Proof.
  intros n start_avg end_avg Hlen _ Hpos.
  assert (Hg : growth_rate t == (end_avg - start_avg) / start_avg).
  { apply growth_rate_value; [exact Hlen|]. fold n. fold start_avg. lra. }
  split; intro H.
  - apply ltb_true. rewrite Hg.
    apply Qlt_shift_div_l; [exact Hpos | lra].
  - apply ltb_false. rewrite Hg.
    apply Qle_shift_div_r; [exact Hpos | lra].
Qed.

Lemma growing_criterion_witness :
  Py.ltb (5 # 100) (growth_rate (track_with_areas [100; 100; 100; 130])) = true /\
  Py.ltb (5 # 100) (growth_rate (track_with_areas [100; 100; 100; 101])) = false.
Proof.
  split.
  - apply (growing_criterion (track_with_areas [100; 100; 100; 130]));
      [simpl; lia | repeat constructor; discriminate | reflexivity
      | discriminate].
  - apply (growing_criterion (track_with_areas [100; 100; 100; 101]));
      [simpl; lia | repeat constructor; discriminate | reflexivity
      | discriminate].
Defined.
